(** * ZeusChat server: a shallow embedding of the socket handlers

    The repository holds two near-duplicate servers: [server.js] (OTP
    issuance, profile update on register, [ON CONFLICT] clauses on the
    invite and friendship inserts) and a second file without the OTP flow
    and without those clauses.  Both share one shape: a PostgreSQL pool, a process-local
    [activeUsers] map from Zeus-PIN to socket id, and one [try]/[catch]
    wrapped handler per socket event.

    The store is modelled as lists of rows, the presence map as an
    insertion-ordered association list (a JavaScript [Map]), and every
    handler as a computation in a small state/exception/output monad:
    state is the store plus the presence map, an exception is what
    [pool.query] or a property access throws, output is the list of
    socket emissions in program order. *)

From Stdlib Require Import List String Ascii ZArith Bool Lia.
From Stdlib Require Import DecimalString DecimalPos DecimalZ.
Import ListNotations.
Open Scope string_scope.
Open Scope Z_scope.
Open Scope list_scope.

Set Implicit Arguments.

(** ** Rows of the durable store *)

(** Zeus-PINs and socket ids are JavaScript strings. *)
Abbreviation Pin := string (only parsing).
Abbreviation SocketId := string (only parsing).

Record OtpRequest := mkOtpRequest {
  otp_email : string;
  otp_otp : string;
  otp_expires_at : Z
}.

Record User := mkUser {
  user_id : Z;
  user_zeus_pin : Pin;
  user_email : option string;
  user_name : option string;
  user_about : option string;
  user_verified_at : option Z
}.

Inductive InviteStatus := pending | accepted.

Record Invite := mkInvite {
  inv_from_pin : Pin;
  inv_to_pin : Pin;
  inv_status : InviteStatus
}.

Record Friendship := mkFriendship {
  user1_pin : Pin;
  user2_pin : Pin
}.

Record Message := mkMessage {
  msg_id : Z;
  msg_from_pin : Pin;
  msg_to_pin : Pin;
  msg_content : string;
  msg_ttl : Z;
  msg_created_at : Z
}.

(** The tables.  [users_seq] and [messages_seq] are the sequences behind
    the [id] columns the handlers read back ([RETURNING id],
    [msgResult.rows[0].id]). *)
Record Db := mkDb {
  otp_requests : list OtpRequest;
  users : list User;
  users_seq : Z;
  invites : list Invite;
  friendships : list Friendship;
  messages : list Message;
  messages_seq : Z
}.

(** ** The table declarations

    No [CREATE TABLE] statement is part of the repository.  The unique
    indexes that a statement names as its conflict target
    ([ON CONFLICT (email)], [ON CONFLICT (zeus_pin)]) are built into the
    statement's model, and so is the uniqueness of [users.zeus_pin] in
    the upsert of [verifyOTP]: the Zeus-PIN is the unique access code of
    an Identity, the index is the one that [ON CONFLICT (zeus_pin)]
    names, and a generated Zeus-PIN that another row carries makes the
    statement throw.  The second file has no statement that names an
    index on [email]; its upsert is modelled with the index on
    [zeus_pin], which it names.  The inserts into [invites] and
    [friendships] name no index ([ON CONFLICT DO NOTHING], or no clause
    at all), so the uniqueness constraint of those two tables is a
    parameter. *)
Inductive PairConstraint :=
| NoConstraint
| UniqueOrderedPair
| UniqueUnorderedPair.

Record Schema := mkSchema {
  invites_unique : PairConstraint;
  friendships_unique : PairConstraint
}.

Definition same_ordered (a b c d : Pin) : bool :=
  (a =? c)%string && (b =? d)%string.

Definition same_unordered (a b c d : Pin) : bool :=
  same_ordered a b c d || same_ordered a b d c.

Definition pair_conflict (c : PairConstraint) (a b a' b' : Pin) : bool :=
  match c with
  | NoConstraint => false
  | UniqueOrderedPair => same_ordered a b a' b'
  | UniqueUnorderedPair => same_unordered a b a' b'
  end.

(** ** The presence map: [const activeUsers = new Map()]

    A JavaScript [Map] iterates in insertion order; [set] on a present key
    keeps the key's position, [delete] removes the entry. *)
Definition ActiveUsers := list (Pin * SocketId).

Fixpoint Map_get (m : ActiveUsers) (k : Pin) : option SocketId :=
  match m with
  | [] => None
  | (k', v) :: rest => if (k' =? k)%string then Some v else Map_get rest k
  end.

Fixpoint Map_set (m : ActiveUsers) (k : Pin) (v : SocketId) : ActiveUsers :=
  match m with
  | [] => [(k, v)]
  | (k', v') :: rest =>
      if (k' =? k)%string then (k', v) :: rest else (k', v') :: Map_set rest k v
  end.

Fixpoint Map_delete (m : ActiveUsers) (k : Pin) : ActiveUsers :=
  match m with
  | [] => []
  | (k', v') :: rest =>
      if (k' =? k)%string then rest else (k', v') :: Map_delete rest k
  end.

(** [if (toSocketId)]: [undefined] and the empty string are falsy. *)
Definition truthy (v : option SocketId) : bool :=
  match v with
  | Some s => negb (s =? "")%string
  | None => false
  end.

(** ** Events and emissions *)

Inductive Exception :=
| unique_violation (table : string)
| TypeError (what : string).

(** The payload of an ['error'] event: a literal of the handler, or
    [err.message] of a caught exception. *)
Inductive ErrorMessage :=
| Literal (text : string)
| err_message (e : Exception).

Inductive Event :=
| otpSent (email : string)
| otpError (text : string)
| otpVerified (user : option User)
| registered (user : option User)
| registeredId (userId : Z)
| error (message : ErrorMessage)
| inviteReceived (fromPin toPin : Pin)
| inviteSent (toPin : Pin)
| friendAdded_toPin (toPin : Pin)
| friendAdded_fromPin (fromPin : Pin)
| inviteAccepted (fromPin toPin : Pin)
| messageReceived (fromPin : Pin) (message : string) (ttl : Z) (messageId : option Z)
| messageSent (toPin : Pin) (message : string).

(** [socket.emit(ev)] answers the connection that issued the action;
    [io.to(id).emit(ev)] pushes to the connection whose id is [id]. *)
Inductive Emission :=
| socket_emitted (socket : SocketId) (ev : Event)
| io_to_emitted (room : SocketId) (ev : Event).

(** ** The handler monad *)

Record Server := mkServer {
  pool : Db;
  activeUsers : ActiveUsers
}.

Inductive Result (A : Type) :=
| Ok (a : A)
| Thrown (e : Exception).
Arguments Thrown {A} e.

Definition M (A : Type) : Type := Server -> Result A * Server * list Emission.

Definition ret {A} (a : A) : M A := fun s => (Ok a, s, []).

Definition bind {A B} (m : M A) (k : A -> M B) : M B :=
  fun s =>
    match m s with
    | (Ok a, s1, out1) =>
        match k a s1 with
        | (r, s2, out2) => (r, s2, out1 ++ out2)
        end
    | (Thrown e, s1, out1) => (Thrown e, s1, out1)
    end.

Definition throw {A} (e : Exception) : M A := fun s => (Thrown e, s, []).

Notation "x <- m ;; k" := (bind m (fun x => k))
  (at level 61, m at next level, right associativity).
Notation "m ;;; k" := (bind m (fun _ => k))
  (at level 61, right associativity).

(** [try { body } catch (err) { handler }]: what [body] wrote and emitted
    before it threw stays (no statement runs inside a transaction). *)
Definition try_catch (body : M unit) (handler : Exception -> M unit) : M unit :=
  fun s =>
    match body s with
    | (Ok _, s1, out1) => (Ok tt, s1, out1)
    | (Thrown e, s1, out1) =>
        match handler e s1 with
        | (r, s2, out2) => (r, s2, out1 ++ out2)
        end
    end.

(** A read-only query, a statement that writes and returns rows, and a
    write that the store may refuse. *)
Definition pool_select {A} (q : Db -> A) : M A :=
  fun s => (Ok (q (pool s)), s, []).

Definition pool_execute {A} (q : Db -> Db * A) : M A :=
  fun s =>
    let '(d, a) := q (pool s) in
    (Ok a, mkServer d (activeUsers s), []).

Definition pool_try {A} (q : Db -> Result (Db * A)) : M A :=
  fun s =>
    match q (pool s) with
    | Ok (d, a) => (Ok a, mkServer d (activeUsers s), [])
    | Thrown e => (Thrown e, s, [])
    end.

(** A statement that spends a sequence value and may then be refused: a
    sequence is not rolled back. *)
Definition pool_attempt {A} (q : Db -> Db * Result A) : M A :=
  fun s =>
    let '(d, r) := q (pool s) in
    (r, mkServer d (activeUsers s), []).

Definition activeUsers_get (k : Pin) : M (option SocketId) :=
  fun s => (Ok (Map_get (activeUsers s) k), s, []).

Definition activeUsers_set (k : Pin) (v : SocketId) : M unit :=
  fun s => (Ok tt, mkServer (pool s) (Map_set (activeUsers s) k v), []).

Definition socket_emit (socket : SocketId) (ev : Event) : M unit :=
  fun s => (Ok tt, s, [socket_emitted socket ev]).

Definition io_to_emit (room : SocketId) (ev : Event) : M unit :=
  fun s => (Ok tt, s, [io_to_emitted room ev]).

(** [rows[0].field]: reading a property of [undefined] throws. *)
Definition rows0 {A} (rows : list A) : M A :=
  match rows with
  | r :: _ => ret r
  | [] => throw (TypeError "Cannot read properties of undefined")
  end.

(** What an action leaves behind: the new server state and the emissions. *)
Definition run (m : M unit) (s : Server) : Server * list Emission :=
  match m s with
  | (_, s', out) => (s', out)
  end.

(** ** The SQL statements

    One definition per statement text, on the tables as lists.  A
    statement with [RETURNING] gives back the rows it wrote. *)

Definition set_otp_requests (d : Db) (t : list OtpRequest) : Db :=
  mkDb t (users d) (users_seq d) (invites d) (friendships d)
       (messages d) (messages_seq d).

Definition set_users (d : Db) (t : list User) (seq : Z) : Db :=
  mkDb (otp_requests d) t seq (invites d) (friendships d)
       (messages d) (messages_seq d).

Definition set_invites (d : Db) (t : list Invite) : Db :=
  mkDb (otp_requests d) (users d) (users_seq d) t (friendships d)
       (messages d) (messages_seq d).

Definition set_friendships (d : Db) (t : list Friendship) : Db :=
  mkDb (otp_requests d) (users d) (users_seq d) (invites d) t
       (messages d) (messages_seq d).

Definition set_messages (d : Db) (t : list Message) (seq : Z) : Db :=
  mkDb (otp_requests d) (users d) (users_seq d) (invites d) (friendships d)
       t seq.

(** [column = $n] on a nullable column: never true on NULL. *)
Definition column_is (c : option string) (v : string) : bool :=
  match c with
  | Some x => (x =? v)%string
  | None => false
  end.

(** [INSERT INTO otp_requests (email, otp, expires_at) VALUES ($1, $2, $3)
     ON CONFLICT (email) DO UPDATE SET otp = $2, expires_at = $3] *)
Definition upsert_otp_request (email otp : string) (expiresAt : Z)
    (d : Db) : Db * unit :=
  let hit r := (otp_email r =? email)%string in
  if existsb hit (otp_requests d) then
    (set_otp_requests d
       (map (fun r => if hit r then mkOtpRequest (otp_email r) otp expiresAt
                      else r)
            (otp_requests d)), tt)
  else
    (set_otp_requests d (otp_requests d ++ [mkOtpRequest email otp expiresAt]),
     tt).

(** [SELECT * FROM otp_requests
     WHERE email = $1 AND otp = $2 AND expires_at > NOW()] *)
Definition select_otp_request (email otp : string) (now : Z)
    (d : Db) : list OtpRequest :=
  filter (fun r => (otp_email r =? email)%string
                   && (otp_otp r =? otp)%string
                   && (now <? otp_expires_at r))
         (otp_requests d).

Definition has_pin (zeusPin : Pin) (u : User) : bool :=
  (user_zeus_pin u =? zeusPin)%string.

(** The unique index on [users.zeus_pin]: the code is taken when a row
    of another address carries it. *)
Definition pin_taken (zeusPin : Pin) (email : string) (d : Db) : bool :=
  existsb (fun u => has_pin zeusPin u && negb (column_is (user_email u) email))
          (users d).

(** [INSERT INTO users (zeus_pin, email, verified_at) VALUES ($1, $2, NOW())
     ON CONFLICT (email) DO UPDATE SET zeus_pin = $1, verified_at = NOW()
     RETURNING *].  The [id] default is drawn before any uniqueness check,
     so the sequence advances on every path.  A Zeus-PIN that is taken
     violates the unique index on [zeus_pin], on the insert path and on
     the update path alike, and the statement throws. *)
Definition upsert_user_by_email (zeusPin : Pin) (email : string) (now : Z)
    (d : Db) : Db * Result (list User) :=
  let hit u := column_is (user_email u) email in
  if pin_taken zeusPin email d then
    (set_users d (users d) (users_seq d + 1),
     Thrown (unique_violation "users"))
  else if existsb hit (users d) then
    let put u := mkUser (user_id u) zeusPin (user_email u) (user_name u)
                        (user_about u) (Some now) in
    (set_users d (map (fun u => if hit u then put u else u) (users d))
               (users_seq d + 1),
     Ok (map put (filter hit (users d))))
  else
    let u := mkUser (users_seq d) zeusPin (Some email) None None (Some now) in
    (set_users d (users d ++ [u]) (users_seq d + 1), Ok [u]).

(** [DELETE FROM otp_requests WHERE email = $1] *)
Definition delete_otp_request (email : string) (d : Db) : Db * unit :=
  (set_otp_requests d
     (filter (fun r => negb (otp_email r =? email)%string) (otp_requests d)),
   tt).

(** The row that [SET name = $2, about = $3] turns [u] into. *)
Definition with_profile (name about : string) (u : User) : User :=
  mkUser (user_id u) (user_zeus_pin u) (user_email u)
         (Some name) (Some about) (user_verified_at u).

(** [UPDATE users SET name = $2, about = $3 WHERE zeus_pin = $1
     RETURNING *] *)
Definition update_user_profile (zeusPin : Pin) (name about : string)
    (d : Db) : Db * list User :=
  (set_users d
     (map (fun u => if has_pin zeusPin u then with_profile name about u else u)
          (users d))
     (users_seq d),
   map (with_profile name about) (filter (has_pin zeusPin) (users d))).

(** [INSERT INTO users (zeus_pin, name, email) VALUES ($1, $2, $3)
     ON CONFLICT (zeus_pin) DO UPDATE SET name = $2, email = $3
     RETURNING id] *)
Definition upsert_user_by_pin (zeusPin : Pin) (name email : string)
    (d : Db) : Db * list Z :=
  if existsb (has_pin zeusPin) (users d) then
    let put u := mkUser (user_id u) (user_zeus_pin u) (Some email)
                        (Some name) (user_about u) (user_verified_at u) in
    (set_users d
       (map (fun u => if has_pin zeusPin u then put u else u) (users d))
       (users_seq d + 1),
     map user_id (filter (has_pin zeusPin) (users d)))
  else
    let u := mkUser (users_seq d) zeusPin (Some email) (Some name) None None in
    (set_users d (users d ++ [u]) (users_seq d + 1), [user_id u]).

(** [SELECT id FROM users WHERE zeus_pin = $1] *)
Definition select_user_id (zeusPin : Pin) (d : Db) : list Z :=
  map user_id (filter (has_pin zeusPin) (users d)).

(** Does a row of [invites] stand in the way of [(fromPin, toPin)] under
    the table's uniqueness constraint? *)
Definition invite_conflict (sch : Schema) (fromPin toPin : Pin)
    (d : Db) : bool :=
  existsb (fun i => pair_conflict (invites_unique sch) fromPin toPin
                                  (inv_from_pin i) (inv_to_pin i))
          (invites d).

(** [INSERT INTO invites (from_pin, to_pin, status) VALUES ($1, $2, $3)
     ON CONFLICT DO NOTHING] *)
Definition insert_invite_on_conflict_do_nothing (sch : Schema)
    (fromPin toPin : Pin) (status : InviteStatus) (d : Db) : Db * unit :=
  if invite_conflict sch fromPin toPin d then (d, tt)
  else (set_invites d (invites d ++ [mkInvite fromPin toPin status]), tt).

(** [INSERT INTO invites (from_pin, to_pin, status) VALUES ($1, $2, $3)] *)
Definition insert_invite (sch : Schema)
    (fromPin toPin : Pin) (status : InviteStatus) (d : Db)
    : Result (Db * unit) :=
  if invite_conflict sch fromPin toPin d
  then Thrown (unique_violation "invites")
  else Ok (set_invites d (invites d ++ [mkInvite fromPin toPin status]), tt).

(** [UPDATE invites SET status = $1 WHERE from_pin = $2 AND to_pin = $3] *)
Definition update_invite_status (status : InviteStatus) (fromPin toPin : Pin)
    (d : Db) : Db * unit :=
  (set_invites d
     (map (fun i => if same_ordered (inv_from_pin i) (inv_to_pin i)
                                    fromPin toPin
                    then mkInvite (inv_from_pin i) (inv_to_pin i) status
                    else i)
          (invites d)), tt).

Definition friendship_conflict (sch : Schema) (a b : Pin) (d : Db) : bool :=
  existsb (fun f => pair_conflict (friendships_unique sch) a b
                                  (user1_pin f) (user2_pin f))
          (friendships d).

(** [INSERT INTO friendships (user1_pin, user2_pin) VALUES ($1, $2)
     ON CONFLICT DO NOTHING] *)
Definition insert_friendship_on_conflict_do_nothing (sch : Schema)
    (a b : Pin) (d : Db) : Db * unit :=
  if friendship_conflict sch a b d then (d, tt)
  else (set_friendships d (friendships d ++ [mkFriendship a b]), tt).

(** [INSERT INTO friendships (user1_pin, user2_pin) VALUES ($1, $2)] *)
Definition insert_friendship (sch : Schema) (a b : Pin) (d : Db)
    : Result (Db * unit) :=
  if friendship_conflict sch a b d
  then Thrown (unique_violation "friendships")
  else Ok (set_friendships d (friendships d ++ [mkFriendship a b]), tt).

(** [SELECT * FROM friendships
     WHERE (user1_pin = $1 AND user2_pin = $2)
        OR (user1_pin = $2 AND user2_pin = $1)] *)
Definition select_friendship (p1 p2 : Pin) (d : Db) : list Friendship :=
  filter (fun f => ((user1_pin f =? p1)%string && (user2_pin f =? p2)%string)
                   || ((user1_pin f =? p2)%string && (user2_pin f =? p1)%string))
         (friendships d).

(** [INSERT INTO messages (from_pin, to_pin, content, ttl, created_at)
     VALUES ($1, $2, $3, $4, NOW())], with or without [RETURNING *] *)
Definition insert_message (fromPin toPin : Pin) (content : string) (ttl now : Z)
    (d : Db) : Db * list Message :=
  let m := mkMessage (messages_seq d) fromPin toPin content ttl now in
  (set_messages d (messages d ++ [m]) (messages_seq d + 1), [m]).

(** [AreRelated] of the specification: the gate of [sendMessage], that is
    [friendship.rows.length === 0] negated. *)
Definition AreRelated (d : Db) (a b : Pin) : bool :=
  negb (List.length (select_friendship a b d) =? 0)%nat.

(** [Number.prototype.toString] on an integer. *)
Definition toString (n : Z) : string := NilZero.string_of_int (Z.to_int n).

(** [generateZeusPIN]: [num] and [num2] are the two values of
    [Math.floor(1000 + Math.random() * 9000)]. *)
Definition generateZeusPIN (num num2 : Z) : Pin :=
  ("ZT-" ++ toString num ++ "-" ++ toString num2)%string.

(** [if (toSocketId) { ... toSocketId ... }] *)
Definition when_truthy (v : option SocketId) (k : SocketId -> M unit)
    : M unit :=
  match v with
  | Some id => if truthy v then k id else ret tt
  | None => ret tt
  end.

(** [catch (err) { socket.emit('error', err.message); }] *)
Definition emit_error (socket : SocketId) (err : Exception) : M unit :=
  socket_emit socket (error (err_message err)).

(** The [for ... of activeUsers.entries()] loop of the disconnect handler:
    the first entry whose value is the socket's id is deleted, then
    [break]. *)
Fixpoint disconnect_loop (entries : list (Pin * SocketId)) (id : SocketId)
    (m : ActiveUsers) : ActiveUsers :=
  match entries with
  | [] => m
  | (pin, id') :: rest =>
      if (id' =? id)%string then Map_delete m pin
      else disconnect_loop rest id m
  end.

(** [socket.on('disconnect', ...)], the same text in both files. *)
Definition disconnect (socket : SocketId) : M unit :=
  fun s =>
    (Ok tt,
     mkServer (pool s) (disconnect_loop (activeUsers s) socket (activeUsers s)),
     []).

(** ** The handlers of [server.js]

    Each handler takes the id of the socket whose closure it is, the
    values the environment supplies during the call ([NOW()],
    [Math.random()]), and the fields of the payload. *)
Module ServerJs.

(** [sendOTP]: logs, sends nothing, returns [true]. *)
Definition sendOTP (email otp : string) : M bool := ret true.

(** [draw] is the value of [Math.floor(100000 + Math.random() * 900000)],
    [dateNow] that of [Date.now()]. *)
Definition requestOTP (socket : SocketId) (draw dateNow : Z)
    (email : string) : M unit :=
  try_catch
    (let otp := toString draw in
     _ <- sendOTP email otp ;;
     let expiresAt := dateNow + 10 * 60 * 1000 in
     pool_execute (upsert_otp_request email otp expiresAt) ;;;
     socket_emit socket (otpSent email))
    (emit_error socket).

(** [now] is [NOW()] in the [SELECT], [verifiedAt] is [NOW()] in the
    [INSERT]; [num] and [num2] feed [generateZeusPIN]. *)
Definition verifyOTP (socket : SocketId) (now verifiedAt num num2 : Z)
    (email otp : string) : M unit :=
  try_catch
    (result <- pool_select (select_otp_request email otp now) ;;
     if (List.length result =? 0)%nat then
       socket_emit socket (otpError "Invalid or expired OTP")
     else
       let zeusPin := generateZeusPIN num num2 in
       userResult <- pool_attempt
                       (upsert_user_by_email zeusPin email verifiedAt) ;;
       pool_execute (delete_otp_request email) ;;;
       socket_emit socket (otpVerified (hd_error userResult)))
    (emit_error socket).

Definition register (socket : SocketId) (zeusPin : Pin)
    (name about : string) : M unit :=
  try_catch
    (result <- pool_execute (update_user_profile zeusPin name about) ;;
     activeUsers_set zeusPin socket ;;;
     socket_emit socket (registered (hd_error result)))
    (emit_error socket).

Definition addContact (sch : Schema) (socket : SocketId)
    (fromPin toPin : Pin) : M unit :=
  try_catch
    (toUser <- pool_select (select_user_id toPin) ;;
     if (List.length toUser =? 0)%nat then
       socket_emit socket (error (Literal "Recipient Zeus-PIN not found"))
     else
       pool_execute
         (insert_invite_on_conflict_do_nothing sch fromPin toPin pending) ;;;
       toSocketId <- activeUsers_get toPin ;;
       when_truthy toSocketId (fun id =>
          io_to_emit id (inviteReceived fromPin toPin)) ;;;
       socket_emit socket (inviteSent toPin))
    (emit_error socket).

Definition acceptInvite (sch : Schema) (socket : SocketId)
    (fromPin toPin : Pin) : M unit :=
  try_catch
    (pool_execute (update_invite_status accepted fromPin toPin) ;;;
     pool_execute
       (insert_friendship_on_conflict_do_nothing sch fromPin toPin) ;;;
     fromSocketId <- activeUsers_get fromPin ;;
     toSocketId <- activeUsers_get toPin ;;
     when_truthy fromSocketId (fun id =>
        io_to_emit id (friendAdded_toPin toPin)) ;;;
     when_truthy toSocketId (fun id =>
        io_to_emit id (friendAdded_fromPin fromPin)) ;;;
     socket_emit socket (inviteAccepted fromPin toPin))
    (emit_error socket).

(** [now] is [NOW()] in the [INSERT]. *)
Definition sendMessage (socket : SocketId) (now : Z)
    (fromPin toPin : Pin) (message : string) (ttl : Z) : M unit :=
  try_catch
    (friendship <- pool_select (select_friendship fromPin toPin) ;;
     if (List.length friendship =? 0)%nat then
       socket_emit socket
         (error (Literal "You must be friends to send messages"))
     else
       msgResult <- pool_execute
                      (insert_message fromPin toPin message ttl now) ;;
       toSocketId <- activeUsers_get toPin ;;
       when_truthy toSocketId (fun id =>
         row <- rows0 msgResult ;;
         io_to_emit id (messageReceived fromPin message ttl
                                        (Some (msg_id row)))) ;;;
       socket_emit socket (messageSent toPin message))
    (emit_error socket).

End ServerJs.

(** ** The handlers of the second file

    No OTP flow; [register] upserts the user by Zeus-PIN; the inserts into
    [invites] and [friendships] carry no [ON CONFLICT] clause; the message
    insert returns no row and the push carries no [messageId]. *)
Module Part000.

Definition register (socket : SocketId) (zeusPin : Pin)
    (name email : string) : M unit :=
  try_catch
    (result <- pool_execute (upsert_user_by_pin zeusPin name email) ;;
     activeUsers_set zeusPin socket ;;;
     id <- rows0 result ;;
     socket_emit socket (registeredId id))
    (emit_error socket).

Definition addContact (sch : Schema) (socket : SocketId)
    (fromPin toPin : Pin) : M unit :=
  try_catch
    (toUser <- pool_select (select_user_id toPin) ;;
     if (List.length toUser =? 0)%nat then
       socket_emit socket (error (Literal "Recipient Zeus-PIN not found"))
     else
       pool_try (insert_invite sch fromPin toPin pending) ;;;
       toSocketId <- activeUsers_get toPin ;;
       when_truthy toSocketId (fun id =>
          io_to_emit id (inviteReceived fromPin toPin)) ;;;
       socket_emit socket (inviteSent toPin))
    (emit_error socket).

Definition acceptInvite (sch : Schema) (socket : SocketId)
    (fromPin toPin : Pin) : M unit :=
  try_catch
    (pool_execute (update_invite_status accepted fromPin toPin) ;;;
     pool_try (insert_friendship sch fromPin toPin) ;;;
     fromSocketId <- activeUsers_get fromPin ;;
     toSocketId <- activeUsers_get toPin ;;
     when_truthy fromSocketId (fun id =>
        io_to_emit id (friendAdded_toPin toPin)) ;;;
     when_truthy toSocketId (fun id =>
        io_to_emit id (friendAdded_fromPin fromPin)) ;;;
     socket_emit socket (inviteAccepted fromPin toPin))
    (emit_error socket).

Definition sendMessage (socket : SocketId) (now : Z)
    (fromPin toPin : Pin) (message : string) (ttl : Z) : M unit :=
  try_catch
    (friendship <- pool_select (select_friendship fromPin toPin) ;;
     if (List.length friendship =? 0)%nat then
       socket_emit socket
         (error (Literal "You must be friends to send messages"))
     else
       pool_execute (insert_message fromPin toPin message ttl now) ;;;
       toSocketId <- activeUsers_get toPin ;;
       when_truthy toSocketId (fun id =>
          io_to_emit id (messageReceived fromPin message ttl None)) ;;;
       socket_emit socket (messageSent toPin message))
    (emit_error socket).

End Part000.


(** * Statements

    The predicates the properties are stated with, and the stores the
    examples run on. *)

(** A Relationship row for the pair, in either ordering. *)
Definition relationship_row (a b : Pin) (f : Friendship) : Prop :=
  (user1_pin f = a /\ user2_pin f = b) \/ (user1_pin f = b /\ user2_pin f = a).

Definition related (d : Db) (a b : Pin) : Prop :=
  exists f, In f (friendships d) /\ relationship_row a b f.

(** A store for the examples: two identities, nothing else. *)
Definition two_users : Db :=
  mkDb []
       [mkUser 1 "ZT-1111-2222" None None None None;
        mkUser 2 "ZT-3333-4444" None None None None]
       3 [] [] [] 1.

Definition friends_db : Db :=
  set_friendships two_users [mkFriendship "ZT-3333-4444" "ZT-1111-2222"].

(** What a successful send leaves behind, compared with the state [s] it
    started from: [row] appended to [messages] and nothing else written,
    and as emissions the acknowledgement [ack], preceded by [push id] when
    the recipient [toPin] is bound to a socket [id]. *)
Definition one_message_persisted (s : Server) (toPin : Pin) (row : Message)
    (push : SocketId -> Emission) (ack : Emission)
    (res : Server * list Emission) : Prop :=
  let '(s', out) := res in
  messages (pool s') = messages (pool s) ++ [row] /\
  List.length (messages (pool s')) = S (List.length (messages (pool s))) /\
  friendships (pool s') = friendships (pool s) /\
  activeUsers s' = activeUsers s /\
  (forall id, Map_get (activeUsers s) toPin = Some id -> id <> "" ->
              out = [push id; ack]) /\
  (truthy (Map_get (activeUsers s) toPin) = false -> out = [ack]).

(** [socket.emit] answers whichever socket the handler belongs to. *)
Definition reply_to (socket : SocketId) (e : Emission) : Emission :=
  match e with
  | socket_emitted _ ev => socket_emitted socket ev
  | io_to_emitted room ev => io_to_emitted room ev
  end.

(** Two runs of a handler from the sockets [s1] and [s2], on one state:
    the same state results, and the same emissions but for the answers,
    which go to the issuing socket. *)
Definition same_outcome (h : SocketId -> M unit) (s1 s2 : SocketId)
    (s : Server) : Prop :=
  fst (run (h s1) s) = fst (run (h s2) s) /\
  snd (run (h s2) s) = map (reply_to s2) (snd (run (h s1) s)).


(** One socket that registers two codes. *)
Definition registered_twice : Server :=
  fst (run (ServerJs.register "s1" "ZT-3333-4444" "Bo" "")
           (fst (run (ServerJs.register "s1" "ZT-1111-2222" "Al" "")
                     (mkServer two_users [])))).

(** The codes that the presence map binds to the socket [id]. *)
Definition bindings_of (id : SocketId) (m : ActiveUsers) : list Pin :=
  map fst (filter (fun e => (snd e =? id)%string) m).

(** A OneTimeCode row for the address whose code is the one supplied and
    whose expiry lies after [now]. *)
Definition otp_valid (d : Db) (email otp : string) (now : Z) : Prop :=
  exists r, In r (otp_requests d) /\
            otp_email r = email /\ otp_otp r = otp /\ now < otp_expires_at r.

Definition invalid_otp (socket : SocketId) : Emission :=
  socket_emitted socket (otpError "Invalid or expired OTP").

(** The store of the scenario: nobody has asked for a code yet. *)
Definition fresh_server : Server := mkServer two_users [].

(** The generated code is already the code of an Identity with another
    address, or with none. *)
Definition code_held_by_another (d : Db) (zeusPin : Pin) (email : string)
    : Prop :=
  exists u, In u (users d) /\ user_zeus_pin u = zeusPin /\
            user_email u <> Some email.

(** The scenario's address has asked for a code and been sent 482913,
    good until 600000. *)
Definition code_issued : Server :=
  fst (run (ServerJs.requestOTP "s1" 482913 0 "a@x.com") fresh_server).

(** How many Relationship rows the store holds for the unordered pair. *)
Definition relationship_count (d : Db) (a b : Pin) : nat :=
  List.length (select_friendship a b d).

Definition one_relationship_per_pair (d : Db) : Prop :=
  forall a b, (relationship_count d a b <= 1)%nat.

(** What an accept may do to [friendships]: nothing when the pair is
    already related, one new row [(fromPin, toPin)] when it is not; and at
    most one row per unordered pair afterwards. *)
Definition relationship_created_once (s : Server) (fromPin toPin : Pin)
    (s' : Server) : Prop :=
  (related (pool s) fromPin toPin ->
   friendships (pool s') = friendships (pool s)) /\
  (~ related (pool s) fromPin toPin ->
   friendships (pool s') =
     friendships (pool s) ++ [mkFriendship fromPin toPin]) /\
  one_relationship_per_pair (pool s').

(** Uniqueness on the ordered pair [(user1_pin, user2_pin)], the
    constraint that makes [ON CONFLICT DO NOTHING] skip a repeated
    insert of the same row; and uniqueness on the unordered pair. *)
Definition ordered_schema : Schema :=
  mkSchema UniqueOrderedPair UniqueOrderedPair.

Definition unordered_schema : Schema :=
  mkSchema UniqueOrderedPair UniqueUnorderedPair.

(** Each of the two identities has invited the other. *)
Definition both_invited : Server :=
  mkServer
    (set_invites two_users
       [mkInvite "ZT-1111-2222" "ZT-3333-4444" pending;
        mkInvite "ZT-3333-4444" "ZT-1111-2222" pending])
    [].

(** Both invites accepted, each by its recipient. *)
Definition accepted_both_ways (sch : Schema) : Server :=
  fst (run (ServerJs.acceptInvite sch "s1" "ZT-3333-4444" "ZT-1111-2222")
           (fst (run (ServerJs.acceptInvite sch "s2"
                        "ZT-1111-2222" "ZT-3333-4444")
                     both_invited))).

(** The same invite sent twice through the second file's handler. *)
Definition invited_once (sch : Schema) : Server :=
  fst (run (Part000.addContact sch "s1" "ZT-1111-2222" "ZT-3333-4444")
           fresh_server).

Definition invited_again (sch : Schema) : Server * list Emission :=
  run (Part000.addContact sch "s1" "ZT-1111-2222" "ZT-3333-4444")
      (invited_once sch).

(** * Further statements

    Predicates for the properties of the handlers beyond the claims. *)

(** The first code, in iteration order, that the presence map binds to
    the socket [id]. *)
Fixpoint first_binding (id : SocketId) (m : ActiveUsers) : option Pin :=
  match m with
  | [] => None
  | (pin, id') :: rest =>
      if (id' =? id)%string then Some pin else first_binding id rest
  end.

(** A presence map as a JavaScript [Map] is: no key twice. *)
Definition distinct_keys (m : ActiveUsers) : Prop := NoDup (map fst m).

(** Three sockets, each bound to one code. *)
Definition three_online : ActiveUsers :=
  [("ZT-1111-2222", "s1"); ("ZT-3333-4444", "s2"); ("ZT-5555-6666", "s3")].

(** [if (id) io.to(id).emit(ev)] with [id = activeUsers.get(pin)]: the
    push that reaches the socket bound to [pin], if there is one. *)
Definition live_push (m : ActiveUsers) (pin : Pin) (ev : Event)
    : list Emission :=
  match Map_get m pin with
  | Some id => if (id =? "")%string then [] else [io_to_emitted id ev]
  | None => []
  end.

(** A [users] row carries the code. *)
Definition identity_exists (d : Db) (zeusPin : Pin) : Prop :=
  exists u, In u (users d) /\ user_zeus_pin u = zeusPin.

(** Everything of the store but the invites. *)
Definition same_but_invites (d d' : Db) : Prop :=
  otp_requests d' = otp_requests d /\ users d' = users d /\
  users_seq d' = users_seq d /\ friendships d' = friendships d /\
  messages d' = messages d /\ messages_seq d' = messages_seq d.

(** The row an accept of [(fromPin, toPin)] turns the invite [i] into. *)
Definition accept_invite (fromPin toPin : Pin) (i : Invite) : Invite :=
  if same_ordered (inv_from_pin i) (inv_to_pin i) fromPin toPin
  then mkInvite (inv_from_pin i) (inv_to_pin i) accepted
  else i.

(** The push of the second file carries no [messageId]. *)
Definition without_messageId (e : Emission) : Emission :=
  match e with
  | io_to_emitted room (messageReceived f m t _) =>
      io_to_emitted room (messageReceived f m t None)
  | _ => e
  end.

(** One pending invite, its recipient online. *)
Definition invited : Server :=
  mkServer
    (set_invites two_users [mkInvite "ZT-1111-2222" "ZT-3333-4444" pending])
    three_online.

(** The two identities are related, one invite between them is pending,
    both are online. *)
Definition related_and_invited : Server :=
  mkServer
    (set_friendships (pool invited)
       [mkFriendship "ZT-1111-2222" "ZT-3333-4444"])
    three_online.

(** The ids of [messages] come from the sequence: no id twice, every id
    below the next value. *)
Definition message_ids_fresh (d : Db) : Prop :=
  NoDup (map msg_id (messages d)) /\
  forall m, In m (messages d) -> msg_id m < messages_seq d.

Definition user_ids_fresh (d : Db) : Prop :=
  NoDup (map user_id (users d)) /\
  forall u, In u (users d) -> user_id u < users_seq d.

(** An Identity and a code waiting for its address. *)
Definition code_waiting : Server :=
  mkServer
    (set_otp_requests
       (set_users two_users
          [mkUser 1 "ZT-1111-2222" (Some "a@x.com") (Some "Al") None (Some 5)]
          2)
       [mkOtpRequest "a@x.com" "482913" 600000])
    [].

(** Each address has at most one code waiting. *)
Definition one_code_per_address (d : Db) : Prop :=
  NoDup (map otp_email (otp_requests d)).

(** The rows of [otp_requests] of the other addresses. *)
Definition other_addresses (email : string) (d : Db) : list OtpRequest :=
  filter (fun r => negb (otp_email r =? email)%string) (otp_requests d).

(** The rows of [otp_requests] of the address. *)
Definition codes_of (email : string) (d : Db) : list OtpRequest :=
  filter (fun r => (otp_email r =? email)%string) (otp_requests d).

(** An Identity row carries the address. *)
Definition has_email (email : string) (u : User) : bool :=
  column_is (user_email u) email.

(** The shape of a Zeus-PIN: [ZT-], four digits, a dash, four digits. *)
Definition is_digit (c : ascii) : bool :=
  (48 <=? nat_of_ascii c)%nat && (nat_of_ascii c <=? 57)%nat.

Fixpoint all_digits (s : string) : bool :=
  match s with
  | EmptyString => true
  | String c rest => is_digit c && all_digits rest
  end.

Definition is_zeus_pin (s : string) : bool :=
  (String.length s =? 12)%nat
  && (substring 0 3 s =? "ZT-")%string
  && all_digits (substring 3 4 s)
  && (substring 7 1 s =? "-")%string
  && all_digits (substring 8 4 s).

(** The values [Math.floor(1000 + Math.random() * 9000)] can take. *)
Definition four_digit_draw (n : Z) : Prop := 1000 <= n <= 9999.

Definition four_digits (s : string) : bool :=
  (String.length s =? 4)%nat && all_digits s.

(** [f] holds of [from], [from + 1], ..., [from + n - 1]. *)
Fixpoint holds_from (f : Z -> bool) (from : Z) (n : nat) : bool :=
  match n with
  | O => true
  | S k => f from && holds_from f (from + 1) k
  end.

(** ** The socket events

    [io.on('connection', (socket) => { socket.on(name, handler); ... })]:
    each connection gets one handler per event name; an event without
    handler is dropped.  An [Action] is an event with its payload;
    ['register'] carries the fields either file destructures. *)
Inductive Action :=
| requestOTP_event (email : string)
| verifyOTP_event (email otp : string)
| register_event (zeusPin : Pin) (name about email : string)
| addContact_event (fromPin toPin : Pin)
| acceptInvite_event (fromPin toPin : Pin)
| sendMessage_event (fromPin toPin : Pin) (message : string) (ttl : Z)
| disconnect_event.

(** What the environment supplies while one action is handled: the
    clock of the process and of the store, and the random draws. *)
Record Env := mkEnv {
  env_dateNow : Z;
  env_now : Z;
  env_verifiedAt : Z;
  env_draw : Z;
  env_num : Z;
  env_num2 : Z
}.

Definition ServerJs_on (sch : Schema) (socket : SocketId) (env : Env)
    (a : Action) : M unit :=
  match a with
  | requestOTP_event email =>
      ServerJs.requestOTP socket (env_draw env) (env_dateNow env) email
  | verifyOTP_event email otp =>
      ServerJs.verifyOTP socket (env_now env) (env_verifiedAt env)
                         (env_num env) (env_num2 env) email otp
  | register_event zeusPin name about _ =>
      ServerJs.register socket zeusPin name about
  | addContact_event fromPin toPin =>
      ServerJs.addContact sch socket fromPin toPin
  | acceptInvite_event fromPin toPin =>
      ServerJs.acceptInvite sch socket fromPin toPin
  | sendMessage_event fromPin toPin message ttl =>
      ServerJs.sendMessage socket (env_now env) fromPin toPin message ttl
  | disconnect_event => disconnect socket
  end.

Definition Part000_on (sch : Schema) (socket : SocketId) (env : Env)
    (a : Action) : M unit :=
  match a with
  | requestOTP_event _ => ret tt
  | verifyOTP_event _ _ => ret tt
  | register_event zeusPin name _ email =>
      Part000.register socket zeusPin name email
  | addContact_event fromPin toPin =>
      Part000.addContact sch socket fromPin toPin
  | acceptInvite_event fromPin toPin =>
      Part000.acceptInvite sch socket fromPin toPin
  | sendMessage_event fromPin toPin message ttl =>
      Part000.sendMessage socket (env_now env) fromPin toPin message ttl
  | disconnect_event => disconnect socket
  end.

(** Actions handled one after the other, each to completion. *)
Fixpoint handle_all (on : SocketId -> Env -> Action -> M unit)
    (trace : list (SocketId * Env * Action)) (s : Server)
    : Server * list Emission :=
  match trace with
  | [] => (s, [])
  | (socket, env, a) :: rest =>
      let '(s1, out1) := run (on socket env a) s in
      let '(s2, out2) := handle_all on rest s1 in
      (s2, out1 ++ out2)
  end.

(** The server as it starts: empty tables, sequences at 1, nobody online. *)
Definition initial : Server := mkServer (mkDb [] [] 1 [] [] [] 1) [].

(** One trace through the whole flow: two addresses verify, both
    register, one invites, the other accepts, they exchange a message,
    one disconnects. *)
Definition env0 : Env := mkEnv 0 1000 1001 482913 1111 2222.
Definition env1 : Env := mkEnv 0 1000 1001 771204 3333 4444.

Definition full_flow : list (SocketId * Env * Action) :=
  [("s1", env0, requestOTP_event "a@x.com");
   ("s1", env0, verifyOTP_event "a@x.com" "482913");
   ("s2", env1, requestOTP_event "b@x.com");
   ("s2", env1, verifyOTP_event "b@x.com" "771204");
   ("s1", env0, register_event "ZT-1111-2222" "Al" "" "a@x.com");
   ("s2", env1, register_event "ZT-3333-4444" "Bo" "" "b@x.com");
   ("s1", env0, addContact_event "ZT-1111-2222" "ZT-3333-4444");
   ("s2", env1, acceptInvite_event "ZT-1111-2222" "ZT-3333-4444");
   ("s1", env0, sendMessage_event "ZT-1111-2222" "ZT-3333-4444" "hi" 30);
   ("s2", env1, disconnect_event)].

(** What every state the server can reach satisfies. *)
Definition well_formed (s : Server) : Prop :=
  distinct_keys (activeUsers s) /\
  message_ids_fresh (pool s) /\
  user_ids_fresh (pool s) /\
  one_code_per_address (pool s).

(** The tables, and which of them the handler of an action writes. *)
Inductive Table :=
| otp_requests_table
| users_table
| invites_table
| friendships_table
| messages_table.

Definition ServerJs_writes (a : Action) (t : Table) : bool :=
  match a, t with
  | requestOTP_event _, otp_requests_table => true
  | verifyOTP_event _ _, otp_requests_table => true
  | verifyOTP_event _ _, users_table => true
  | register_event _ _ _ _, users_table => true
  | addContact_event _ _, invites_table => true
  | acceptInvite_event _ _, invites_table => true
  | acceptInvite_event _ _, friendships_table => true
  | sendMessage_event _ _ _ _, messages_table => true
  | _, _ => false
  end.

Definition Part000_writes (a : Action) (t : Table) : bool :=
  match a with
  | requestOTP_event _ | verifyOTP_event _ _ => false
  | _ => ServerJs_writes a t
  end.

(** The table [t] holds the same rows, and its sequence the same value,
    in [d'] as in [d]. *)
Definition table_same (t : Table) (d d' : Db) : Prop :=
  match t with
  | otp_requests_table => otp_requests d' = otp_requests d
  | users_table => users d' = users d /\ users_seq d' = users_seq d
  | invites_table => invites d' = invites d
  | friendships_table => friendships d' = friendships d
  | messages_table => messages d' = messages d /\
                      messages_seq d' = messages_seq d
  end.

(** Only [register] and [disconnect] may write the presence map. *)
Definition touches_presence (a : Action) : bool :=
  match a with
  | register_event _ _ _ _ | disconnect_event => true
  | _ => false
  end.

(** Relationships and messages of [s] are still there in [s'], in place. *)
Definition only_grows (s s' : Server) : Prop :=
  (exists more, friendships (pool s') = friendships (pool s) ++ more) /\
  (exists more, messages (pool s') = messages (pool s) ++ more).

(** The events that [io.to(id).emit] carries. *)
Definition is_push (ev : Event) : bool :=
  match ev with
  | inviteReceived _ _ | friendAdded_toPin _ | friendAdded_fromPin _
  | messageReceived _ _ _ _ => true
  | _ => false
  end.

(** An emission of an action issued from [socket] on the presence map
    [m]: an answer to [socket], or a push to a socket that [m] binds. *)
Definition well_addressed (socket : SocketId) (m : ActiveUsers)
    (e : Emission) : Prop :=
  match e with
  | socket_emitted k _ => k = socket
  | io_to_emitted id ev =>
      is_push ev = true /\ id <> "" /\ exists pin, Map_get m pin = Some id
  end.

(** An invite of the ordered pair has been accepted. *)
Definition accepted_invite (d : Db) (fromPin toPin : Pin) : Prop :=
  In (mkInvite fromPin toPin accepted) (invites d).

(** * Properties *)

(** Unfolds the monad down to the statements of the store. *)
Ltac run_handler :=
  unfold run, try_catch, bind, ret, throw, emit_error,
    pool_select, pool_execute, pool_try, pool_attempt, activeUsers_get,
    activeUsers_set, socket_emit, io_to_emit, when_truthy, rows0;
  cbn [pool activeUsers fst snd app].

Ltac send_cases s toPin :=
  unfold one_message_persisted, insert_message; cbn;
  destruct (Map_get (activeUsers s) toPin) as [id|] eqn:E; cbn;
  [ destruct (id =? "")%string eqn:N; cbn |];
  repeat split; try reflexivity; try discriminate;
  try (rewrite length_app; cbn; lia);
  try (intros id' Hid Hne; inversion Hid; subst;
       first [ reflexivity
             | match goal with
               | N : (_ =? "")%string = true |- _ =>
                   apply String.eqb_eq in N; contradiction
               end ]).

Ltac branch_on_guards :=
  repeat match goal with
         | |- context [if ?c then _ else _] => destruct c eqn:?; cbn
         | |- context [match Map_get ?m ?k with _ => _ end] =>
             destruct (Map_get m k) eqn:?; cbn
         | |- context [match insert_invite ?a ?b ?c ?d ?e with _ => _ end] =>
             destruct (insert_invite a b c d e) as [[? ?]|?]; cbn
         | |- context [match insert_friendship ?a ?b ?c ?d with _ => _ end] =>
             destruct (insert_friendship a b c d) as [[? ?]|?]; cbn
         end.

(** ** The authorization gate *)

Lemma select_friendship_In (d : Db) (a b : Pin) (f : Friendship) :
  In f (select_friendship a b d) <->
  In f (friendships d) /\ relationship_row a b f.
Proof.
  unfold select_friendship, relationship_row.
  rewrite filter_In, orb_true_iff, !andb_true_iff, !String.eqb_eq.
  tauto.
Qed.

Lemma AreRelated_true_iff (d : Db) (a b : Pin) :
  AreRelated d a b = true <-> related d a b.
Proof.
  unfold AreRelated, related.
  destruct (select_friendship a b d) as [|f rest] eqn:E; cbn.
  - split; [discriminate|].
    intros [f Hf]. apply select_friendship_In in Hf.
    rewrite E in Hf. contradiction.
  - split; [intros _|reflexivity].
    exists f. apply select_friendship_In. rewrite E. now left.
Qed.

Lemma AreRelated_false_iff (d : Db) (a b : Pin) :
  AreRelated d a b = false <-> ~ related d a b.
Proof.
  rewrite <- AreRelated_true_iff. destruct (AreRelated d a b); intuition congruence.
Qed.

Lemma gate_closed (d : Db) (a b : Pin) :
  ~ related d a b ->
  (List.length (select_friendship a b d) =? 0)%nat = true.
Proof.
  intros H. apply AreRelated_false_iff in H. unfold AreRelated in H.
  now apply negb_false_iff.
Qed.

Lemma gate_open (d : Db) (a b : Pin) :
  related d a b ->
  (List.length (select_friendship a b d) =? 0)%nat = false.
Proof.
  intros H. apply AreRelated_true_iff in H. unfold AreRelated in H.
  now apply negb_true_iff.
Qed.

(** C8. The friendship query returns the same rows for [(a, b)] and for
    [(b, a)], so the authorization check [AreRelated] gives the same
    boolean for both orderings, in every store state. *)
Theorem AreRelated_symmetric (d : Db) (a b : Pin) :
  select_friendship a b d = select_friendship b a d /\
  AreRelated d a b = AreRelated d b a.
Proof.
  assert (E : select_friendship a b d = select_friendship b a d).
  { unfold select_friendship. apply filter_ext. intros f. apply orb_comm. }
  split; [exact E|]. unfold AreRelated. now rewrite E.
Qed.

(** C1. When no Relationship row exists for the pair in either ordering,
    [sendMessage] (in both files) leaves the server state as it was (no
    Message row is written) and its only emission is the ['error'] event
    answered to the issuing socket: nothing is pushed to the recipient. *)
Theorem sendMessage_not_related_fails_closed
    (socket : SocketId) (now : Z) (fromPin toPin : Pin) (message : string)
    (ttl : Z) (s : Server) :
  ~ related (pool s) fromPin toPin ->
  run (ServerJs.sendMessage socket now fromPin toPin message ttl) s =
    (s, [socket_emitted socket
           (error (Literal "You must be friends to send messages"))]) /\
  run (Part000.sendMessage socket now fromPin toPin message ttl) s =
    (s, [socket_emitted socket
           (error (Literal "You must be friends to send messages"))]).
Proof.
  intros H. split.
  - unfold ServerJs.sendMessage. run_handler.
    now rewrite (gate_closed H).
  - unfold Part000.sendMessage. run_handler.
    now rewrite (gate_closed H).
Qed.

Lemma sendMessage_not_related_fails_closed_witness :
  ~ related two_users "ZT-1111-2222" "ZT-3333-4444" /\
  run (ServerJs.sendMessage "s1" 7 "ZT-1111-2222" "ZT-3333-4444" "hi" 30)
      (mkServer two_users [("ZT-3333-4444", "s2")]) =
    (mkServer two_users [("ZT-3333-4444", "s2")],
     [socket_emitted "s1"
        (error (Literal "You must be friends to send messages"))]).
Proof.
  assert (H : ~ related two_users "ZT-1111-2222" "ZT-3333-4444").
  { apply AreRelated_false_iff. reflexivity. }
  split; [exact H|].
  apply (sendMessage_not_related_fails_closed "s1" 7 "hi" 30
           (mkServer two_users [("ZT-3333-4444", "s2")]) H).
Defined.

(** C7. When a Relationship row exists for the pair, [sendMessage] (in
    both files) appends exactly one Message row, whatever the presence map
    holds; the push to the recipient's socket, when the recipient is
    online, comes before the acknowledgement and on top of that row. *)
Theorem sendMessage_persists_exactly_one
    (socket : SocketId) (now : Z) (fromPin toPin : Pin) (message : string)
    (ttl : Z) (s : Server) :
  related (pool s) fromPin toPin ->
  let row := mkMessage (messages_seq (pool s)) fromPin toPin message ttl now in
  let ack := socket_emitted socket (messageSent toPin message) in
  one_message_persisted s toPin row
    (fun id => io_to_emitted id
                 (messageReceived fromPin message ttl (Some (msg_id row))))
    ack
    (run (ServerJs.sendMessage socket now fromPin toPin message ttl) s) /\
  one_message_persisted s toPin row
    (fun id => io_to_emitted id (messageReceived fromPin message ttl None))
    ack
    (run (Part000.sendMessage socket now fromPin toPin message ttl) s).
Proof.
  intros H row ack. split.
  - unfold ServerJs.sendMessage. run_handler.
    rewrite (gate_open H). send_cases s toPin.
  - unfold Part000.sendMessage. run_handler.
    rewrite (gate_open H). send_cases s toPin.
Qed.

Lemma sendMessage_persists_exactly_one_witness :
  related friends_db "ZT-1111-2222" "ZT-3333-4444" /\
  messages (pool (fst (run (ServerJs.sendMessage "s1" 7 "ZT-1111-2222"
                              "ZT-3333-4444" "hi" 30)
                           (mkServer friends_db [])))) =
    [mkMessage 1 "ZT-1111-2222" "ZT-3333-4444" "hi" 30 7].
Proof.
  assert (H : related friends_db "ZT-1111-2222" "ZT-3333-4444").
  { apply AreRelated_true_iff. reflexivity. }
  split; [exact H|].
  pose proof (sendMessage_persists_exactly_one "s1" 7 "hi" 30
                (mkServer friends_db []) H) as [P _].
  unfold one_message_persisted in P.
  destruct (run (ServerJs.sendMessage "s1" 7 "ZT-1111-2222"
                   "ZT-3333-4444" "hi" 30) (mkServer friends_db []))
    as [s' out].
  exact (proj1 P).
Defined.

(** C10. In both files the outcome of [addContact], [acceptInvite] and
    [sendMessage] is a function of the payload and of the shared state
    alone: issued from any two sockets [s1] and [s2], whatever code the
    presence map binds to either of them, the same rows are written and
    the same events are emitted, the answers going to the issuing
    socket. *)
Theorem actions_ignore_issuing_connection
    (sch : Schema) (s1 s2 : SocketId) (s : Server)
    (fromPin toPin : Pin) (message : string) (ttl now : Z) :
  same_outcome (fun k => ServerJs.addContact sch k fromPin toPin) s1 s2 s /\
  same_outcome (fun k => ServerJs.acceptInvite sch k fromPin toPin) s1 s2 s /\
  same_outcome
    (fun k => ServerJs.sendMessage k now fromPin toPin message ttl) s1 s2 s /\
  same_outcome (fun k => Part000.addContact sch k fromPin toPin) s1 s2 s /\
  same_outcome (fun k => Part000.acceptInvite sch k fromPin toPin) s1 s2 s /\
  same_outcome
    (fun k => Part000.sendMessage k now fromPin toPin message ttl) s1 s2 s.
Proof.
  unfold same_outcome.
  repeat split.
  all: unfold ServerJs.addContact, ServerJs.acceptInvite, ServerJs.sendMessage,
         Part000.addContact, Part000.acceptInvite, Part000.sendMessage;
       run_handler;
       unfold insert_message, insert_invite_on_conflict_do_nothing,
         insert_friendship_on_conflict_do_nothing, update_invite_status;
       cbn; branch_on_guards; reflexivity.
Qed.

(** ** Registration and the presence map *)


Lemma Map_set_keys (m : ActiveUsers) (k : Pin) (v : SocketId) :
  map fst (Map_set m k v) =
    if existsb (fun e => (fst e =? k)%string) m
    then map fst m else map fst m ++ [k].
Proof.
  induction m as [|[k' v'] rest IH]; cbn; [reflexivity|].
  destruct (k' =? k)%string eqn:E; cbn; [reflexivity|].
  rewrite IH. now destruct (existsb _ rest).
Qed.

(** [set] keeps the keys of the map distinct. *)
Lemma Map_set_NoDup (m : ActiveUsers) (k : Pin) (v : SocketId) :
  NoDup (map fst m) -> NoDup (map fst (Map_set m k v)).
Proof.
  intros H. rewrite Map_set_keys.
  destruct (existsb _ m) eqn:E; [exact H|].
  apply NoDup_app; [exact H|repeat constructor; intros []|].
  intros x Hx [Hkx|[]]. subst x.
  apply in_map_iff in Hx. destruct Hx as [[k' v'] [Hk Hin]]. cbn in Hk. subst k'.
  assert (C : existsb (fun e => (fst e =? k)%string) m = true).
  { apply existsb_exists. exists (k, v'). split; [exact Hin|].
    cbn. apply String.eqb_refl. }
  congruence.
Qed.

Lemma existsb_filter_cons {A} (f : A -> bool) (l : list A) :
  existsb f l = true -> exists x rest, filter f l = x :: rest.
Proof.
  induction l as [|a l IH]; cbn; [discriminate|].
  destruct (f a); cbn; eauto.
Qed.

Lemma existsb_false_filter_nil {A} (f : A -> bool) (l : list A) :
  existsb f l = false -> filter f l = [].
Proof.
  induction l as [|a l IH]; cbn; [reflexivity|].
  destruct (f a); cbn; [discriminate|exact IH].
Qed.



(** ** Disconnect *)

(** The loop stops at the first entry of the socket: with the keys of the
    map distinct, it removes that entry and keeps every later one. *)
Lemma disconnect_loop_first (m : ActiveUsers) (id : SocketId) :
  NoDup (map fst m) ->
  bindings_of id (disconnect_loop m id m) = tl (bindings_of id m).
Proof.
  intros Hnd.
  assert (G : forall pre entries,
             m = pre ++ entries ->
             bindings_of id pre = [] ->
             bindings_of id (disconnect_loop entries id m)
             = tl (bindings_of id m)).
  { intros pre entries. revert pre.
    induction entries as [|[pin v] rest IH]; intros pre Hm Hpre.
    - cbn. rewrite app_nil_r in Hm. subst pre. now rewrite Hpre.
    - cbn. destruct (v =? id)%string eqn:V.
      + subst m. clear IH.
        unfold bindings_of in *.
        rewrite filter_app, map_app, Hpre. cbn. rewrite V. cbn.
        rewrite map_app in Hnd. cbn in Hnd.
        induction pre as [|[k0 v0] pre IHp]; cbn.
        * rewrite String.eqb_refl. reflexivity.
        * cbn in Hpre, Hnd.
          destruct (k0 =? pin)%string eqn:K.
          -- apply String.eqb_eq in K. subst k0.
             apply NoDup_cons_iff in Hnd. exfalso. apply (proj1 Hnd).
             apply in_or_app. right. now left.
          -- destruct (v0 =? id)%string eqn:V0; [discriminate|]. cbn. rewrite V0.
             apply IHp; [|exact Hpre].
             now apply NoDup_cons_iff in Hnd.
      + apply (IH (pre ++ [(pin, v)])).
        * now rewrite <- app_assoc.
        * unfold bindings_of in *. rewrite filter_app, map_app, Hpre.
          cbn. now rewrite V. }
  apply (G [] m); reflexivity.
Qed.

(** When at most one entry references the socket, none does after the
    disconnect. *)
Lemma disconnect_removes_sole_binding (socket : SocketId) (s : Server) :
  NoDup (map fst (activeUsers s)) ->
  (List.length (bindings_of socket (activeUsers s)) <= 1)%nat ->
  bindings_of socket (activeUsers (fst (run (disconnect socket) s))) = [].
Proof.
  intros Hnd Hone. unfold disconnect, run. cbn [fst activeUsers].
  rewrite disconnect_loop_first by exact Hnd.
  destruct (bindings_of socket (activeUsers s)) as [|p [|q l]];
    cbn in *; try reflexivity; lia.
Qed.

(** C9, on the code: [register] binds a second code to a socket that is
    already bound, so two entries reference it; the disconnect loop
    deletes the first and stops at its [break], and the second code still
    maps to the closed connection. *)
Theorem disconnect_leaves_second_binding :
  activeUsers registered_twice =
    [("ZT-1111-2222", "s1"); ("ZT-3333-4444", "s1")] /\
  bindings_of "s1" (activeUsers registered_twice) =
    ["ZT-1111-2222"; "ZT-3333-4444"] /\
  activeUsers (fst (run (disconnect "s1") registered_twice)) =
    [("ZT-3333-4444", "s1")] /\
  Map_get (activeUsers (fst (run (disconnect "s1") registered_twice)))
          "ZT-3333-4444" = Some "s1".
Proof. repeat split. Qed.

(** ** One-time codes *)

Lemma select_otp_request_In (d : Db) (email otp : string) (now : Z)
    (r : OtpRequest) :
  In r (select_otp_request email otp now d) <->
  In r (otp_requests d) /\
  otp_email r = email /\ otp_otp r = otp /\ now < otp_expires_at r.
Proof.
  unfold select_otp_request.
  rewrite filter_In, !andb_true_iff, !String.eqb_eq, Z.ltb_lt. tauto.
Qed.

Lemma otp_valid_iff (d : Db) (email otp : string) (now : Z) :
  otp_valid d email otp now <->
  (List.length (select_otp_request email otp now d) =? 0)%nat = false.
Proof.
  unfold otp_valid. split.
  - intros [r Hr]. apply select_otp_request_In in Hr.
    destruct (select_otp_request email otp now d); [contradiction|reflexivity].
  - destruct (select_otp_request email otp now d) as [|r rest] eqn:E;
      [discriminate|].
    intros _. exists r. apply select_otp_request_In. rewrite E. now left.
Qed.

Lemma column_is_false (c : option string) (v : string) :
  column_is c v = false <-> c <> Some v.
Proof.
  destruct c as [x|]; cbn.
  - rewrite String.eqb_neq. split; congruence.
  - split; [discriminate|reflexivity].
Qed.

(** The index check of the upsert, read on the rows. *)
Lemma pin_taken_iff (zeusPin : Pin) (email : string) (d : Db) :
  pin_taken zeusPin email d = true <-> code_held_by_another d zeusPin email.
Proof.
  unfold pin_taken, code_held_by_another, has_pin.
  rewrite existsb_exists. split.
  - intros [u [Hin Hu]]. apply andb_true_iff in Hu. destruct Hu as [Hp He].
    apply String.eqb_eq in Hp. apply negb_true_iff, column_is_false in He.
    now exists u.
  - intros [u [Hin [Hp He]]]. exists u. split; [exact Hin|].
    apply andb_true_iff. split; [now apply String.eqb_eq|].
    now apply negb_true_iff, column_is_false.
Qed.

Lemma pin_free_iff (zeusPin : Pin) (email : string) (d : Db) :
  pin_taken zeusPin email d = false <-> ~ code_held_by_another d zeusPin email.
Proof.
  rewrite <- pin_taken_iff. destruct (pin_taken zeusPin email d); split;
    congruence.
Qed.

Lemma upsert_user_by_email_returns (zeusPin : Pin) (email : string) (now : Z)
    (d : Db) :
  pin_taken zeusPin email d = false ->
  exists u rest,
    snd (upsert_user_by_email zeusPin email now d) = Ok (u :: rest).
Proof.
  intros Hfree. unfold upsert_user_by_email. rewrite Hfree.
  destruct (existsb _ (users d)) eqn:E; cbn; [|eauto].
  destruct (existsb_filter_cons _ _ E) as [u [rest Hf]].
  rewrite Hf. cbn. eauto.
Qed.

Lemma upsert_user_by_email_thrown (zeusPin : Pin) (email : string) (now : Z)
    (d : Db) :
  pin_taken zeusPin email d = true ->
  upsert_user_by_email zeusPin email now d =
    (set_users d (users d) (users_seq d + 1),
     Thrown (unique_violation "users")).
Proof.
  intros Htaken. unfold upsert_user_by_email. now rewrite Htaken.
Qed.

(** The outcome of [verifyOTP]: the check refuses, the upsert goes
    through, or the upsert throws and the [DELETE] is never reached. *)
Lemma verifyOTP_run (socket : SocketId) (now verifiedAt num num2 : Z)
    (email otp : string) (s : Server) :
  run (ServerJs.verifyOTP socket now verifiedAt num num2 email otp) s =
    if (List.length (select_otp_request email otp now (pool s)) =? 0)%nat
    then (s, [invalid_otp socket])
    else
      let upserted :=
        upsert_user_by_email (generateZeusPIN num num2) email verifiedAt
                             (pool s) in
      match snd upserted with
      | Ok rows =>
          (mkServer (fst (delete_otp_request email (fst upserted)))
                    (activeUsers s),
           [socket_emitted socket (otpVerified (hd_error rows))])
      | Thrown e =>
          (mkServer (fst upserted) (activeUsers s),
           [socket_emitted socket (error (err_message e))])
      end.
Proof.
  unfold ServerJs.verifyOTP. run_handler.
  destruct (List.length (select_otp_request email otp now (pool s)) =? 0)%nat;
    [reflexivity|].
  destruct (upsert_user_by_email _ email verifiedAt (pool s)) as [d' [rows|e]];
    reflexivity.
Qed.

(** C5, on the code.  [generateZeusPIN] draws a Zeus-PIN and hands it to
    the upsert unchecked.  Here the one-time code is the one issued, for
    the address it was issued to, nine minutes before its expiry, and the
    draw is the Zeus-PIN of another Identity: the store refuses the row,
    and [verifyOTP] answers neither ['otpVerified'] nor ['otpError'] but
    an ['error'] event with the message of the store.  The sequence of
    [users] has moved and nothing else has. *)
Theorem verifyOTP_valid_code_not_verified :
  otp_valid (pool code_issued) "a@x.com" "482913" 1000 /\
  generateZeusPIN 1111 2222 = "ZT-1111-2222" /\
  run (ServerJs.verifyOTP "s1" 1000 1001 1111 2222 "a@x.com" "482913")
      code_issued =
    (mkServer
       (mkDb [mkOtpRequest "a@x.com" "482913" 600000]
             [mkUser 1 "ZT-1111-2222" None None None None;
              mkUser 2 "ZT-3333-4444" None None None None]
             4 [] [] [] 1)
       [],
     [socket_emitted "s1"
        (error (err_message (unique_violation "users")))]).
Proof.
  split; [|split]; [|reflexivity|reflexivity].
  exists (mkOtpRequest "a@x.com" "482913" 600000).
  split; [now left|]. now repeat split.
Qed.

Lemma requestOTP_run (socket : SocketId) (draw dateNow : Z) (email : string)
    (s : Server) :
  run (ServerJs.requestOTP socket draw dateNow email) s =
    (mkServer (fst (upsert_otp_request email (toString draw)
                      (dateNow + 10 * 60 * 1000) (pool s)))
              (activeUsers s),
     [socket_emitted socket (otpSent email)]).
Proof.
  unfold ServerJs.requestOTP, ServerJs.sendOTP. run_handler.
  destruct (upsert_otp_request email (toString draw)
              (dateNow + 10 * 60 * 1000) (pool s)) as [d' u].
  reflexivity.
Qed.

Lemma upsert_otp_request_valid (email otp : string) (expiresAt now : Z)
    (d : Db) :
  now < expiresAt ->
  otp_valid (fst (upsert_otp_request email otp expiresAt d)) email otp now.
Proof.
  intros Hlt. unfold upsert_otp_request, otp_valid.
  destruct (existsb _ (otp_requests d)) eqn:E; cbn.
  - apply existsb_exists in E. destruct E as [r [Hin Hr]].
    exists (mkOtpRequest (otp_email r) otp expiresAt).
    split; [|cbn; apply String.eqb_eq in Hr; auto].
    apply in_map_iff. exists r. now rewrite Hr.
  - exists (mkOtpRequest email otp expiresAt).
    split; [|cbn; auto].
    apply in_or_app. right. now left.
Qed.

Lemma upsert_otp_request_users (email otp : string) (expiresAt : Z) (d : Db) :
  users (fst (upsert_otp_request email otp expiresAt d)) = users d.
Proof.
  unfold upsert_otp_request.
  destruct (existsb _ (otp_requests d)); reflexivity.
Qed.

Lemma otp_requests_after_upsert (zeusPin : Pin) (email : string)
    (verifiedAt : Z) (d : Db) :
  otp_requests (fst (upsert_user_by_email zeusPin email verifiedAt d)) =
  otp_requests d.
Proof.
  unfold upsert_user_by_email.
  destruct (pin_taken zeusPin email d); [reflexivity|].
  destruct (existsb _ (users d)); reflexivity.
Qed.

Lemma otp_requests_after_verify (zeusPin : Pin) (email : string)
    (verifiedAt : Z) (d : Db) :
  otp_requests
    (fst (delete_otp_request email
            (fst (upsert_user_by_email zeusPin email verifiedAt d)))) =
  filter (fun r => negb (otp_email r =? email)%string) (otp_requests d).
Proof.
  unfold delete_otp_request. cbn [fst otp_requests set_otp_requests].
  now rewrite otp_requests_after_upsert.
Qed.

Lemma no_row_not_valid (d : Db) (email otp : string) (now : Z) :
  (forall r, In r (otp_requests d) -> otp_email r <> email) ->
  ~ otp_valid d email otp now.
Proof.
  intros H [r [Hin [He _]]]. exact (H r Hin He).
Qed.

Lemma verifyOTP_valid_verified (socket : SocketId)
    (now verifiedAt num num2 : Z) (email otp : string) (s : Server) :
  otp_valid (pool s) email otp now ->
  pin_taken (generateZeusPIN num num2) email (pool s) = false ->
  exists u, snd (run (ServerJs.verifyOTP socket now verifiedAt num num2
                        email otp) s)
            = [socket_emitted socket (otpVerified (Some u))].
Proof.
  intros H Hfree. apply otp_valid_iff in H. rewrite verifyOTP_run, H.
  cbv zeta.
  destruct (@upsert_user_by_email_returns _ _ verifiedAt _ Hfree)
    as [u [rest Hu]].
  rewrite Hu. cbn [snd hd_error]. now exists u.
Qed.

(** C6, on the code.  The code issued to an address is presented twice
    within its TTL.  The first [verifyOTP] draws the Zeus-PIN of another
    Identity: the upsert throws, the [DELETE] after it is skipped, and
    the answer is an ['error'] event with the OneTimeCode row still in
    place.  The second [verifyOTP], with the same address and code, then
    answers ['otpVerified'], and only now is the row deleted: the first
    verification did not succeed and the second did not fail. *)
Theorem failed_verification_keeps_code :
  let first := run (ServerJs.verifyOTP "s1" 1000 1001 1111 2222
                      "a@x.com" "482913") code_issued in
  let second := run (ServerJs.verifyOTP "s1" 2000 2001 3333 5555
                       "a@x.com" "482913") (fst first) in
  1000 < 0 + 10 * 60 * 1000 /\ 2000 < 0 + 10 * 60 * 1000 /\
  snd first =
    [socket_emitted "s1" (error (err_message (unique_violation "users")))] /\
  otp_requests (pool (fst first)) =
    [mkOtpRequest "a@x.com" "482913" 600000] /\
  snd second =
    [socket_emitted "s1"
       (otpVerified
          (Some (mkUser 4 "ZT-3333-5555" (Some "a@x.com") None None
                        (Some 2001))))] /\
  otp_requests (pool (fst second)) = [].
Proof.
  cbv zeta. split; [lia|]. split; [lia|].
  split; [|split; [|split]]; reflexivity.
Qed.

(** ** Relationships *)

Lemma existsb_filter_length {A} (f : A -> bool) (l : list A) :
  existsb f l = negb (List.length (filter f l) =? 0)%nat.
Proof.
  induction l as [|a l IH]; cbn; [reflexivity|].
  destruct (f a); cbn; [reflexivity|exact IH].
Qed.

(** Under uniqueness on the unordered pair, the store refuses exactly the
    pairs that [AreRelated] accepts. *)
Lemma friendship_conflict_unordered (sch : Schema) (a b : Pin) (d : Db) :
  friendships_unique sch = UniqueUnorderedPair ->
  friendship_conflict sch a b d = AreRelated d a b.
Proof.
  intros Hsch. unfold friendship_conflict, AreRelated, select_friendship.
  rewrite Hsch, existsb_filter_length. cbn [pair_conflict].
  do 3 f_equal. apply filter_ext. intros f.
  unfold same_unordered, same_ordered.
  rewrite (String.eqb_sym a), (String.eqb_sym b),
          (String.eqb_sym a (user2_pin f)), (String.eqb_sym b (user1_pin f)).
  f_equal. apply andb_comm.
Qed.

(** The friendships table after an accept, for every schema. *)
Lemma acceptInvite_friendships (sch : Schema) (socket : SocketId)
    (fromPin toPin : Pin) (s : Server) :
  let after :=
    if friendship_conflict sch fromPin toPin (pool s)
    then friendships (pool s)
    else friendships (pool s) ++ [mkFriendship fromPin toPin] in
  friendships (pool (fst (run (ServerJs.acceptInvite sch socket fromPin toPin)
                              s))) = after /\
  friendships (pool (fst (run (Part000.acceptInvite sch socket fromPin toPin)
                              s))) = after.
Proof.
  split.
  - unfold ServerJs.acceptInvite. run_handler.
    unfold insert_friendship_on_conflict_do_nothing, update_invite_status,
      friendship_conflict.
    cbn. branch_on_guards; reflexivity.
  - unfold Part000.acceptInvite. run_handler.
    unfold insert_friendship, update_invite_status, friendship_conflict.
    cbn. branch_on_guards; reflexivity.
Qed.

Lemma relationship_count_app (d d' : Db) (f : Friendship) (a b : Pin) :
  friendships d' = friendships d ++ [f] ->
  relationship_count d' a b =
    (relationship_count d a b
     + List.length (select_friendship a b (set_friendships d [f])))%nat.
Proof.
  intros H. unfold relationship_count, select_friendship. rewrite H.
  cbn [friendships set_friendships]. now rewrite filter_app, length_app.
Qed.

Lemma relationship_count_same_pair (d : Db) (a b p q : Pin) :
  select_friendship a b (set_friendships d [mkFriendship p q]) <> [] ->
  relationship_count d a b = relationship_count d p q.
Proof.
  unfold relationship_count, select_friendship. cbn.
  destruct ((p =? a)%string && (q =? b)%string
            || (p =? b)%string && (q =? a)%string) eqn:E;
    [intros _|intros H; now contradiction H].
  f_equal. apply filter_ext. intros f.
  apply orb_true_iff in E.
  destruct E as [E|E]; apply andb_true_iff in E; destruct E as [E1 E2];
    apply String.eqb_eq in E1, E2; subst a b; [reflexivity|apply orb_comm].
Qed.

Lemma insert_keeps_one_per_pair (d d' : Db) (p q : Pin) :
  one_relationship_per_pair d ->
  AreRelated d p q = false ->
  friendships d' = friendships d ++ [mkFriendship p q] ->
  one_relationship_per_pair d'.
Proof.
  intros Hinv Hno Happ a b.
  rewrite (@relationship_count_app d d' _ a b Happ).
  destruct (select_friendship a b (set_friendships d [mkFriendship p q]))
    as [|f rest] eqn:E.
  - cbn. specialize (Hinv a b). lia.
  - assert (Hsame : relationship_count d a b = relationship_count d p q).
    { apply relationship_count_same_pair. rewrite E. discriminate. }
    rewrite Hsame.
    unfold AreRelated in Hno. apply negb_false_iff, Nat.eqb_eq in Hno.
    unfold relationship_count. rewrite Hno.
    revert E. unfold select_friendship. cbn.
    destruct (_ || _); intros E; inversion E; subst; cbn; lia.
Qed.

Lemma friendships_only (d d' : Db) :
  friendships d' = friendships d ->
  one_relationship_per_pair d -> one_relationship_per_pair d'.
Proof.
  intros H Hinv a b. specialize (Hinv a b).
  unfold relationship_count, select_friendship in *. now rewrite H.
Qed.

Lemma accept_creates_once (sch : Schema) (s s' : Server) (fromPin toPin : Pin) :
  friendships_unique sch = UniqueUnorderedPair ->
  one_relationship_per_pair (pool s) ->
  friendships (pool s') =
    (if friendship_conflict sch fromPin toPin (pool s)
     then friendships (pool s)
     else friendships (pool s) ++ [mkFriendship fromPin toPin]) ->
  relationship_created_once s fromPin toPin s'.
Proof.
  intros Hsch Hinv Hfs.
  rewrite (@friendship_conflict_unordered sch _ _ _ Hsch) in Hfs.
  unfold relationship_created_once.
  destruct (AreRelated (pool s) fromPin toPin) eqn:R.
  - apply AreRelated_true_iff in R. repeat split.
    + intros _. exact Hfs.
    + intros N. contradiction.
    + now apply (@friendships_only (pool s) (pool s') Hfs).
  - repeat split.
    + intros N. apply AreRelated_true_iff in N. congruence.
    + intros _. exact Hfs.
    + now apply (@insert_keeps_one_per_pair (pool s) (pool s') fromPin toPin Hinv R Hfs).
Qed.

Lemma accept_makes_related (sch : Schema) (d d' : Db) (p q : Pin) :
  friendships d' =
    (if friendship_conflict sch p q d
     then friendships d
     else friendships d ++ [mkFriendship p q]) ->
  related d' p q.
Proof.
  intros H. destruct (friendship_conflict sch p q d) eqn:C.
  - unfold friendship_conflict in C. apply existsb_exists in C.
    destruct C as [f [Hin Hc]]. exists f. rewrite H. split; [exact Hin|].
    unfold relationship_row.
    destruct (friendships_unique sch); cbn in Hc; [discriminate| |].
    + unfold same_ordered in Hc. apply andb_true_iff in Hc.
      destruct Hc as [E1 E2]. apply String.eqb_eq in E1, E2. auto.
    + unfold same_unordered, same_ordered in Hc.
      apply orb_true_iff in Hc.
      destruct Hc as [Hc|Hc]; apply andb_true_iff in Hc;
        destruct Hc as [E1 E2]; apply String.eqb_eq in E1, E2; auto.
  - exists (mkFriendship p q). rewrite H. split.
    + apply in_or_app. right. now left.
    + left. auto.
Qed.

(** Under any uniqueness constraint on [friendships], accepting the same
    invite a second time adds no row, in either file. *)
Lemma same_invite_accepted_twice (sch : Schema) (socket socket' : SocketId)
    (fromPin toPin : Pin) (s : Server) :
  friendships_unique sch <> NoConstraint ->
  let s1 := fst (run (ServerJs.acceptInvite sch socket fromPin toPin) s) in
  let p1 := fst (run (Part000.acceptInvite sch socket fromPin toPin) s) in
  friendships
    (pool (fst (run (ServerJs.acceptInvite sch socket' fromPin toPin) s1))) =
    friendships (pool s1) /\
  friendships
    (pool (fst (run (Part000.acceptInvite sch socket' fromPin toPin) p1))) =
    friendships (pool p1).
Proof.
  intros Hsch s1 p1.
  assert (K : forall t,
             friendships (pool t) =
               (if friendship_conflict sch fromPin toPin (pool s)
                then friendships (pool s)
                else friendships (pool s) ++ [mkFriendship fromPin toPin]) ->
             friendship_conflict sch fromPin toPin (pool t) = true).
  { intros t Ht. unfold friendship_conflict at 1. rewrite Ht.
    destruct (friendship_conflict sch fromPin toPin (pool s)) eqn:C;
      [exact C|].
    rewrite existsb_app. apply orb_true_iff. right. cbn.
    destruct (friendships_unique sch); [congruence| |];
      unfold pair_conflict, same_unordered, same_ordered;
      now rewrite !String.eqb_refl. }
  destruct (acceptInvite_friendships sch socket fromPin toPin s) as [Hs Hp].
  fold s1 in Hs. fold p1 in Hp. cbv zeta in Hs, Hp.
  split.
  - rewrite (proj1 (acceptInvite_friendships sch socket' fromPin toPin s1)).
    now rewrite (K s1 Hs).
  - rewrite (proj2 (acceptInvite_friendships sch socket' fromPin toPin p1)).
    now rewrite (K p1 Hp).
Qed.

(** C2, the claim under uniqueness on the ordered pair: the invites
    [(a, b)] and [(b, a)] are both accepted and [friendships] holds the
    two rows [(a, b)] and [(b, a)] for the same two identities. *)
Lemma accept_both_ways_two_rows :
  friendships (pool (accepted_both_ways ordered_schema)) =
    [mkFriendship "ZT-1111-2222" "ZT-3333-4444";
     mkFriendship "ZT-3333-4444" "ZT-1111-2222"] /\
  relationship_count (pool (accepted_both_ways ordered_schema))
                     "ZT-1111-2222" "ZT-3333-4444" = 2%nat /\
  ~ one_relationship_per_pair (pool (accepted_both_ways ordered_schema)).
Proof.
  repeat split.
  intros H. specialize (H "ZT-1111-2222" "ZT-3333-4444").
  vm_compute in H. lia.
Qed.

(** C2, amended.  Where the uniqueness constraint of [friendships] is on
    the unordered pair, [acceptInvite] (in both files) adds the row
    [(fromPin, toPin)] only if the pair is not yet related, and a store
    with at most one row per unordered pair stays so; accepting the
    invite in the other direction, or the same invite again, adds no
    second row. *)
Theorem acceptInvite_one_relationship_per_pair
    (sch : Schema) (socket socket' : SocketId) (fromPin toPin : Pin)
    (s : Server) :
  friendships_unique sch = UniqueUnorderedPair ->
  one_relationship_per_pair (pool s) ->
  let s1 := fst (run (ServerJs.acceptInvite sch socket fromPin toPin) s) in
  let p1 := fst (run (Part000.acceptInvite sch socket fromPin toPin) s) in
  relationship_created_once s fromPin toPin s1 /\
  relationship_created_once s fromPin toPin p1 /\
  friendships
    (pool (fst (run (ServerJs.acceptInvite sch socket' toPin fromPin) s1))) =
    friendships (pool s1) /\
  friendships
    (pool (fst (run (ServerJs.acceptInvite sch socket' fromPin toPin) s1))) =
    friendships (pool s1) /\
  friendships
    (pool (fst (run (Part000.acceptInvite sch socket' toPin fromPin) p1))) =
    friendships (pool p1) /\
  friendships
    (pool (fst (run (Part000.acceptInvite sch socket' fromPin toPin) p1))) =
    friendships (pool p1).
Proof.
  intros Hsch Hinv s1 p1.
  destruct (acceptInvite_friendships sch socket fromPin toPin s) as [Hs Hp].
  fold s1 in Hs. fold p1 in Hp. cbv zeta in Hs, Hp.
  assert (Rs : related (pool s1) fromPin toPin).
  { apply (@accept_makes_related sch (pool s) (pool s1) fromPin toPin Hs). }
  assert (Rp : related (pool p1) fromPin toPin).
  { apply (@accept_makes_related sch (pool s) (pool p1) fromPin toPin Hp). }
  assert (Rs' : related (pool s1) toPin fromPin).
  { destruct Rs as [f [Hin Hrow]]. exists f. split; [exact Hin|].
    unfold relationship_row in *. tauto. }
  assert (Rp' : related (pool p1) toPin fromPin).
  { destruct Rp as [f [Hin Hrow]]. exists f. split; [exact Hin|].
    unfold relationship_row in *. tauto. }
  assert (K : forall t a b, related (pool t) a b ->
              (if friendship_conflict sch a b (pool t)
               then friendships (pool t)
               else friendships (pool t) ++ [mkFriendship a b])
              = friendships (pool t)).
  { intros t a b H. rewrite (@friendship_conflict_unordered sch _ _ _ Hsch).
    apply AreRelated_true_iff in H. now rewrite H. }
  split; [now apply (@accept_creates_once sch s _ fromPin toPin Hsch Hinv)|].
  split; [now apply (@accept_creates_once sch s _ fromPin toPin Hsch Hinv)|].
  repeat split.
  - rewrite (proj1 (acceptInvite_friendships sch socket' toPin fromPin s1)).
    now apply K.
  - rewrite (proj1 (acceptInvite_friendships sch socket' fromPin toPin s1)).
    now apply K.
  - rewrite (proj2 (acceptInvite_friendships sch socket' toPin fromPin p1)).
    now apply K.
  - rewrite (proj2 (acceptInvite_friendships sch socket' fromPin toPin p1)).
    now apply K.
Qed.

Lemma acceptInvite_one_relationship_per_pair_witness :
  friendships_unique unordered_schema = UniqueUnorderedPair /\
  one_relationship_per_pair (pool both_invited) /\
  friendships (pool (accepted_both_ways unordered_schema)) =
    [mkFriendship "ZT-1111-2222" "ZT-3333-4444"].
Proof.
  assert (Hsch : friendships_unique unordered_schema = UniqueUnorderedPair)
    by reflexivity.
  assert (Hinv : one_relationship_per_pair (pool both_invited)).
  { intros a b. cbn. lia. }
  split; [exact Hsch|]. split; [exact Hinv|].
  unfold accepted_both_ways.
  rewrite (proj1 (proj2 (proj2
             (@acceptInvite_one_relationship_per_pair unordered_schema
                "s2" "s1" "ZT-1111-2222" "ZT-3333-4444" both_invited
                Hsch Hinv)))).
  reflexivity.
Defined.

(** ** Invites *)

(** In [server.js], with a uniqueness constraint on [invites], an invite
    that repeats a stored one writes nothing and is answered like the
    first. *)
Lemma ServerJs_repeated_invite_ignored (sch : Schema) (socket : SocketId)
    (fromPin toPin : Pin) (status : InviteStatus) (s : Server) :
  invites_unique sch <> NoConstraint ->
  In (mkInvite fromPin toPin status) (invites (pool s)) ->
  fst (run (ServerJs.addContact sch socket fromPin toPin) s) = s /\
  (select_user_id toPin (pool s) <> [] ->
   truthy (Map_get (activeUsers s) toPin) = false ->
   snd (run (ServerJs.addContact sch socket fromPin toPin) s) =
     [socket_emitted socket (inviteSent toPin)]).
Proof.
  intros Hsch Hin.
  assert (C : invite_conflict sch fromPin toPin (pool s) = true).
  { unfold invite_conflict. apply existsb_exists.
    exists (mkInvite fromPin toPin status). split; [exact Hin|]. cbn.
    destruct (invites_unique sch); [congruence| |];
      unfold pair_conflict, same_unordered, same_ordered;
      now rewrite !String.eqb_refl. }
  unfold ServerJs.addContact. run_handler.
  destruct (List.length (select_user_id toPin (pool s)) =? 0)%nat eqn:U; cbn.
  - split; [now destruct s|]. intros Hu.
    destruct (select_user_id toPin (pool s)); [now contradiction Hu|discriminate].
  - unfold insert_invite_on_conflict_do_nothing. rewrite C.
    destruct s as [d au]. cbn.
    destruct (Map_get au toPin) as [id|]; cbn;
      [destruct (id =? "")%string; cbn|];
      split; try reflexivity; intros _ Ht; try reflexivity; discriminate.
Qed.

(** C3, on the code.  The second file inserts the invite with no
    [ON CONFLICT] clause.  Sent a second time, the same invite is stored
    a second time when [invites] has no uniqueness constraint, and is
    refused by the store and answered with an ['error'] event when it has
    one: under no schema is it ignored. *)
Theorem repeated_invite_not_ignored (sch : Schema) :
  invites (pool (invited_once sch)) =
    [mkInvite "ZT-1111-2222" "ZT-3333-4444" pending] /\
  match invites_unique sch with
  | NoConstraint =>
      invites (pool (fst (invited_again sch))) =
        [mkInvite "ZT-1111-2222" "ZT-3333-4444" pending;
         mkInvite "ZT-1111-2222" "ZT-3333-4444" pending]
  | _ =>
      invited_again sch =
        (invited_once sch,
         [socket_emitted "s1"
            (error (err_message (unique_violation "invites")))])
  end.
Proof.
  destruct sch as [[| |] fs]; split; reflexivity.
Qed.

(** * Further properties of the handlers *)

(** ** The presence map under [register] and [disconnect] *)


Lemma Map_get_delete_ne (m : ActiveUsers) (p k : Pin) :
  k <> p -> Map_get (Map_delete m p) k = Map_get m k.
Proof.
  intros Hne. induction m as [|[k0 v0] rest IH]; cbn; [reflexivity|].
  destruct (String.eqb_spec k0 p) as [->|Hp]; cbn.
  - destruct (String.eqb_spec p k); [congruence|reflexivity].
  - destruct (k0 =? k)%string; [reflexivity|exact IH].
Qed.

Lemma Map_get_None_keys (m : ActiveUsers) (k : Pin) :
  ~ In k (map fst m) -> Map_get m k = None.
Proof.
  induction m as [|[k0 v0] rest IH]; cbn; [reflexivity|].
  intros H. destruct (String.eqb_spec k0 k) as [->|Hk]; [tauto|].
  apply IH. tauto.
Qed.

Lemma Map_get_delete_same (m : ActiveUsers) (p : Pin) :
  distinct_keys m -> Map_get (Map_delete m p) p = None.
Proof.
  unfold distinct_keys.
  induction m as [|[k0 v0] rest IH]; cbn; [reflexivity|].
  intros Hnd. apply NoDup_cons_iff in Hnd. destruct Hnd as [Hnot Hnd].
  destruct (String.eqb_spec k0 p) as [->|Hp]; cbn.
  - now apply Map_get_None_keys.
  - destruct (String.eqb_spec k0 p); [contradiction|]. now apply IH.
Qed.

Lemma Map_delete_keys_incl (m : ActiveUsers) (p k : Pin) :
  In k (map fst (Map_delete m p)) -> In k (map fst m).
Proof.
  induction m as [|[k0 v0] rest IH]; cbn; [tauto|].
  destruct (k0 =? p)%string; cbn; tauto.
Qed.

(** [delete] keeps the keys of the map distinct. *)
Lemma Map_delete_distinct (m : ActiveUsers) (p : Pin) :
  distinct_keys m -> distinct_keys (Map_delete m p).
Proof.
  unfold distinct_keys.
  induction m as [|[k0 v0] rest IH]; cbn; [auto|].
  intros Hnd. apply NoDup_cons_iff in Hnd. destruct Hnd as [Hnot Hnd].
  destruct (k0 =? p)%string; cbn; [exact Hnd|].
  apply NoDup_cons; [|now apply IH].
  intros H. apply Hnot. now apply Map_delete_keys_incl in H.
Qed.

(** The loop, as one step: delete the first code bound to the socket. *)
Lemma disconnect_loop_first_binding (entries m : ActiveUsers) (id : SocketId) :
  disconnect_loop entries id m =
    match first_binding id entries with
    | Some pin => Map_delete m pin
    | None => m
    end.
Proof.
  induction entries as [|[pin id'] rest IH]; cbn; [reflexivity|].
  destruct (id' =? id)%string; [reflexivity|exact IH].
Qed.

Lemma first_binding_get (m : ActiveUsers) (id : SocketId) (pin : Pin) :
  distinct_keys m -> first_binding id m = Some pin -> Map_get m pin = Some id.
Proof.
  unfold distinct_keys.
  induction m as [|[k0 v0] rest IH]; cbn; [discriminate|].
  intros Hnd Hf. apply NoDup_cons_iff in Hnd. destruct Hnd as [Hnot Hnd].
  destruct (String.eqb_spec v0 id) as [->|Hv].
  - inversion Hf; subst. now rewrite String.eqb_refl.
  - specialize (IH Hnd Hf).
    destruct (String.eqb_spec k0 pin) as [->|Hk]; [|exact IH].
    exfalso. apply Hnot. clear - IH.
    induction rest as [|[k1 v1] rest IHr]; cbn in *; [discriminate|].
    destruct (String.eqb_spec k1 pin); [now left|right; now apply IHr].
Qed.

Lemma first_binding_none (m : ActiveUsers) (id : SocketId) :
  first_binding id m = None <-> bindings_of id m = [].
Proof.
  unfold bindings_of.
  induction m as [|[k0 v0] rest IH]; cbn; [tauto|].
  destruct (v0 =? id)%string; cbn; [split; discriminate|exact IH].
Qed.

Lemma register_activeUsers (socket : SocketId) (zeusPin : Pin)
    (name about email : string) (s : Server) :
  activeUsers (fst (run (ServerJs.register socket zeusPin name about) s)) =
    Map_set (activeUsers s) zeusPin socket /\
  activeUsers (fst (run (Part000.register socket zeusPin name email) s)) =
    Map_set (activeUsers s) zeusPin socket.
Proof.
  split.
  - unfold ServerJs.register. run_handler. reflexivity.
  - unfold Part000.register. run_handler. unfold upsert_user_by_pin.
    destruct (existsb (has_pin zeusPin) (users (pool s))) eqn:E; cbn.
    + destruct (existsb_filter_cons _ _ E) as [u [rest Hf]].
      rewrite Hf. reflexivity.
    + reflexivity.
Qed.



(** X2. A disconnect touches no other socket.  With the keys of the map
    distinct, every code that is not bound to the closing socket keeps its
    binding (or its absence); the store is not written and nothing is
    emitted. *)
Theorem disconnect_spares_other_sockets
    (socket : SocketId) (pin : Pin) (s : Server) :
  distinct_keys (activeUsers s) ->
  Map_get (activeUsers s) pin <> Some socket ->
  Map_get (activeUsers (fst (run (disconnect socket) s))) pin =
    Map_get (activeUsers s) pin /\
  pool (fst (run (disconnect socket) s)) = pool s /\
  snd (run (disconnect socket) s) = [] /\
  distinct_keys (activeUsers (fst (run (disconnect socket) s))).
Proof.
  intros Hnd Hpin. unfold disconnect, run. cbn [fst snd pool activeUsers].
  rewrite disconnect_loop_first_binding.
  destruct (first_binding socket (activeUsers s)) as [p|] eqn:F.
  - repeat split; [|now apply Map_delete_distinct].
    apply Map_get_delete_ne. intros ->.
    apply Hpin. now apply first_binding_get.
  - repeat split. exact Hnd.
Qed.

Lemma disconnect_spares_other_sockets_witness :
  distinct_keys three_online /\
  Map_get three_online "ZT-3333-4444" <> Some "s1" /\
  Map_get (activeUsers (fst (run (disconnect "s1")
                                 (mkServer two_users three_online))))
          "ZT-3333-4444" = Some "s2".
Proof.
  assert (H : distinct_keys three_online).
  { unfold distinct_keys. cbn.
    repeat (apply NoDup_cons; [cbn; intuition discriminate|]).
    apply NoDup_nil. }
  assert (N : Map_get three_online "ZT-3333-4444" <> Some "s1")
    by (cbn; discriminate).
  split; [exact H|]. split; [exact N|].
  exact (proj1 (@disconnect_spares_other_sockets "s1" "ZT-3333-4444"
                  (mkServer two_users three_online) H N)).
Defined.

(** X3. Disconnecting a socket that never registered is a no-op: when no
    entry of the map references the socket, the server state is returned
    as it was and nothing is emitted. *)
Theorem disconnect_unregistered_is_noop (socket : SocketId) (s : Server) :
  bindings_of socket (activeUsers s) = [] ->
  run (disconnect socket) s = (s, []).
Proof.
  intros H. apply first_binding_none in H.
  unfold disconnect, run. rewrite disconnect_loop_first_binding, H.
  now destruct s.
Qed.

Lemma disconnect_unregistered_is_noop_witness :
  bindings_of "s7" three_online = [] /\
  run (disconnect "s7") (mkServer two_users three_online) =
    (mkServer two_users three_online, []).
Proof.
  assert (H : bindings_of "s7" three_online = []) by reflexivity.
  split; [exact H|].
  exact (@disconnect_unregistered_is_noop "s7"
           (mkServer two_users three_online) H).
Defined.

Lemma first_binding_set (m : ActiveUsers) (pin : Pin) (id : SocketId) :
  first_binding id m = None ->
  first_binding id (Map_set m pin id) = Some pin.
Proof.
  induction m as [|[k0 v0] rest IH]; cbn.
  - now rewrite String.eqb_refl.
  - destruct (String.eqb_spec v0 id) as [->|Hv]; [discriminate|].
    intros H. destruct (String.eqb_spec k0 pin) as [->|Hk]; cbn.
    + now rewrite String.eqb_refl.
    + destruct (String.eqb_spec v0 id); [contradiction|]. now apply IH.
Qed.




(** ** Invites *)

Lemma identity_exists_iff (d : Db) (zeusPin : Pin) :
  identity_exists d zeusPin <->
  (List.length (select_user_id zeusPin d) =? 0)%nat = false.
Proof.
  unfold identity_exists, select_user_id. rewrite length_map. split.
  - intros [u [Hin Hu]].
    assert (F : In u (filter (has_pin zeusPin) (users d))).
    { apply filter_In. split; [exact Hin|]. unfold has_pin.
      now apply String.eqb_eq. }
    destruct (filter (has_pin zeusPin) (users d)); [contradiction|reflexivity].
  - destruct (filter (has_pin zeusPin) (users d)) as [|u rest] eqn:E;
      [discriminate|].
    intros _. exists u.
    assert (F : In u (filter (has_pin zeusPin) (users d)))
      by (rewrite E; now left).
    apply filter_In in F. destruct F as [Hin Hu].
    split; [exact Hin|]. now apply String.eqb_eq.
Qed.

(** The outcome of [addContact] in [server.js], on either side of its
    check. *)
Lemma ServerJs_addContact_run (sch : Schema) (socket : SocketId)
    (fromPin toPin : Pin) (s : Server) :
  run (ServerJs.addContact sch socket fromPin toPin) s =
    if (List.length (select_user_id toPin (pool s)) =? 0)%nat
    then (s, [socket_emitted socket
                (error (Literal "Recipient Zeus-PIN not found"))])
    else (mkServer
            (fst (insert_invite_on_conflict_do_nothing sch fromPin toPin
                    pending (pool s)))
            (activeUsers s),
          live_push (activeUsers s) toPin (inviteReceived fromPin toPin)
          ++ [socket_emitted socket (inviteSent toPin)]).
Proof.
  unfold ServerJs.addContact, live_push. run_handler.
  destruct (List.length (select_user_id toPin (pool s)) =? 0)%nat;
    [reflexivity|].
  destruct (insert_invite_on_conflict_do_nothing sch fromPin toPin pending
              (pool s)) as [d u]. cbn.
  destruct (Map_get (activeUsers s) toPin) as [id|]; cbn; [|reflexivity].
  destruct (id =? "")%string; reflexivity.
Qed.

Lemma Part000_addContact_run (sch : Schema) (socket : SocketId)
    (fromPin toPin : Pin) (s : Server) :
  run (Part000.addContact sch socket fromPin toPin) s =
    if (List.length (select_user_id toPin (pool s)) =? 0)%nat
    then (s, [socket_emitted socket
                (error (Literal "Recipient Zeus-PIN not found"))])
    else if invite_conflict sch fromPin toPin (pool s)
    then (s, [socket_emitted socket
                (error (err_message (unique_violation "invites")))])
    else (mkServer
            (set_invites (pool s)
               (invites (pool s) ++ [mkInvite fromPin toPin pending]))
            (activeUsers s),
          live_push (activeUsers s) toPin (inviteReceived fromPin toPin)
          ++ [socket_emitted socket (inviteSent toPin)]).
Proof.
  unfold Part000.addContact, live_push. run_handler.
  destruct (List.length (select_user_id toPin (pool s)) =? 0)%nat;
    [reflexivity|].
  unfold insert_invite.
  destruct (invite_conflict sch fromPin toPin (pool s)); [reflexivity|].
  cbn.
  destruct (Map_get (activeUsers s) toPin) as [id|]; cbn; [|reflexivity].
  destruct (id =? "")%string; reflexivity.
Qed.

(** X5. An invite to a code that no Identity carries is refused, in both
    files: the state is returned as it was (no Invite row is written),
    and the only emission is the ['error'] event with the text
    "Recipient Zeus-PIN not found", answered to the issuing socket. *)
Theorem addContact_unknown_recipient
    (sch : Schema) (socket : SocketId) (fromPin toPin : Pin) (s : Server) :
  ~ identity_exists (pool s) toPin ->
  run (ServerJs.addContact sch socket fromPin toPin) s =
    (s, [socket_emitted socket
           (error (Literal "Recipient Zeus-PIN not found"))]) /\
  run (Part000.addContact sch socket fromPin toPin) s =
    (s, [socket_emitted socket
           (error (Literal "Recipient Zeus-PIN not found"))]).
Proof.
  intros H. rewrite identity_exists_iff in H.
  apply not_false_is_true in H.
  rewrite ServerJs_addContact_run, Part000_addContact_run, H. now split.
Qed.

Lemma addContact_unknown_recipient_witness :
  ~ identity_exists two_users "ZT-0000-0000" /\
  run (ServerJs.addContact ordered_schema "s1" "ZT-1111-2222" "ZT-0000-0000")
      fresh_server =
    (fresh_server,
     [socket_emitted "s1" (error (Literal "Recipient Zeus-PIN not found"))]).
Proof.
  assert (H : ~ identity_exists (pool fresh_server) "ZT-0000-0000").
  { intros E. apply identity_exists_iff in E. discriminate E. }
  split; [exact H|].
  exact (proj1 (@addContact_unknown_recipient ordered_schema "s1"
                  "ZT-1111-2222" "ZT-0000-0000" fresh_server H)).
Defined.

(** X6. An invite to an existing Identity through [server.js] never
    fails.  The issuing socket is answered ['inviteSent'] whether or not
    the recipient is online and whether or not the row was already
    there; the recipient's socket, when bound, is pushed
    ['inviteReceived'] first.  The invites table is left as it was or
    gains the one row [(fromPin, toPin, pending)]; nothing else of the
    store and nothing of the presence map changes. *)
Theorem ServerJs_addContact_known_recipient
    (sch : Schema) (socket : SocketId) (fromPin toPin : Pin) (s : Server) :
  identity_exists (pool s) toPin ->
  let s' := fst (run (ServerJs.addContact sch socket fromPin toPin) s) in
  snd (run (ServerJs.addContact sch socket fromPin toPin) s) =
    live_push (activeUsers s) toPin (inviteReceived fromPin toPin)
    ++ [socket_emitted socket (inviteSent toPin)] /\
  (invites (pool s') = invites (pool s) \/
   invites (pool s') =
     invites (pool s) ++ [mkInvite fromPin toPin pending]) /\
  same_but_invites (pool s) (pool s') /\
  activeUsers s' = activeUsers s.
Proof.
  intros H s'. apply identity_exists_iff in H. subst s'.
  rewrite ServerJs_addContact_run, H. cbn [fst snd pool activeUsers].
  unfold insert_invite_on_conflict_do_nothing, same_but_invites.
  destruct (invite_conflict sch fromPin toPin (pool s)); cbn; intuition.
Qed.

Lemma ServerJs_addContact_known_recipient_witness :
  identity_exists two_users "ZT-3333-4444" /\
  snd (run (ServerJs.addContact ordered_schema "s1"
              "ZT-1111-2222" "ZT-3333-4444")
           (mkServer two_users three_online)) =
    [io_to_emitted "s2" (inviteReceived "ZT-1111-2222" "ZT-3333-4444");
     socket_emitted "s1" (inviteSent "ZT-3333-4444")].
Proof.
  assert (H : identity_exists (pool (mkServer two_users three_online))
                              "ZT-3333-4444").
  { apply identity_exists_iff. reflexivity. }
  split; [exact H|].
  exact (proj1 (@ServerJs_addContact_known_recipient ordered_schema "s1"
                  "ZT-1111-2222" "ZT-3333-4444"
                  (mkServer two_users three_online) H)).
Defined.

(** The outcome of [acceptInvite], in [server.js] and in the second
    file. *)
Lemma ServerJs_acceptInvite_run (sch : Schema) (socket : SocketId)
    (fromPin toPin : Pin) (s : Server) :
  run (ServerJs.acceptInvite sch socket fromPin toPin) s =
    (mkServer
       (fst (insert_friendship_on_conflict_do_nothing sch fromPin toPin
               (fst (update_invite_status accepted fromPin toPin (pool s)))))
       (activeUsers s),
     live_push (activeUsers s) fromPin (friendAdded_toPin toPin)
     ++ live_push (activeUsers s) toPin (friendAdded_fromPin fromPin)
     ++ [socket_emitted socket (inviteAccepted fromPin toPin)]).
Proof.
  unfold ServerJs.acceptInvite, live_push. run_handler.
  unfold update_invite_status. cbn [fst].
  destruct (insert_friendship_on_conflict_do_nothing sch fromPin toPin _)
    as [d u]. cbn.
  destruct (Map_get (activeUsers s) fromPin) as [i|]; cbn;
    [destruct (i =? "")%string; cbn|];
    (destruct (Map_get (activeUsers s) toPin) as [j|]; cbn;
     [destruct (j =? "")%string; cbn|]); reflexivity.
Qed.

Lemma Part000_acceptInvite_run (sch : Schema) (socket : SocketId)
    (fromPin toPin : Pin) (s : Server) :
  run (Part000.acceptInvite sch socket fromPin toPin) s =
    let updated := fst (update_invite_status accepted fromPin toPin (pool s)) in
    if friendship_conflict sch fromPin toPin (pool s)
    then (mkServer updated (activeUsers s),
          [socket_emitted socket
             (error (err_message (unique_violation "friendships")))])
    else (mkServer
            (set_friendships updated
               (friendships (pool s) ++ [mkFriendship fromPin toPin]))
            (activeUsers s),
          live_push (activeUsers s) fromPin (friendAdded_toPin toPin)
          ++ live_push (activeUsers s) toPin (friendAdded_fromPin fromPin)
          ++ [socket_emitted socket (inviteAccepted fromPin toPin)]).
Proof.
  unfold Part000.acceptInvite, live_push. run_handler.
  unfold update_invite_status, insert_friendship, friendship_conflict.
  cbn [fst friendships set_invites pool].
  destruct (existsb _ (friendships (pool s))); [reflexivity|]. cbn.
  destruct (Map_get (activeUsers s) fromPin) as [i|]; cbn;
    [destruct (i =? "")%string; cbn|];
    (destruct (Map_get (activeUsers s) toPin) as [j|]; cbn;
     [destruct (j =? "")%string; cbn|]); reflexivity.
Qed.

(** ** Accepting *)

(** X7. The second file writes the accept outside any transaction.  When
    the store refuses the friendship row, the action is answered with the
    ['error'] event alone and nobody is notified, yet the status update
    has been written: every invite of the ordered pair is now accepted;
    friendships and the presence map are as before. *)
Theorem Part000_acceptInvite_refused
    (sch : Schema) (socket : SocketId) (fromPin toPin : Pin) (s : Server) :
  friendship_conflict sch fromPin toPin (pool s) = true ->
  let s' := fst (run (Part000.acceptInvite sch socket fromPin toPin) s) in
  snd (run (Part000.acceptInvite sch socket fromPin toPin) s) =
    [socket_emitted socket
       (error (err_message (unique_violation "friendships")))] /\
  invites (pool s') = map (accept_invite fromPin toPin) (invites (pool s)) /\
  (forall status, In (mkInvite fromPin toPin status) (invites (pool s)) ->
                  In (mkInvite fromPin toPin accepted) (invites (pool s'))) /\
  friendships (pool s') = friendships (pool s) /\
  activeUsers s' = activeUsers s.
Proof.
  intros C s'. subst s'. rewrite Part000_acceptInvite_run, C.
  cbv zeta. cbn [fst snd pool activeUsers].
  repeat split.
  intros status Hin. unfold update_invite_status. cbn.
  apply in_map_iff. exists (mkInvite fromPin toPin status).
  split; [|exact Hin]. cbn. unfold same_ordered.
  now rewrite !String.eqb_refl.
Qed.

Lemma Part000_acceptInvite_refused_witness :
  friendship_conflict ordered_schema "ZT-1111-2222" "ZT-3333-4444"
    (pool related_and_invited) = true /\
  invites (pool (fst (run (Part000.acceptInvite ordered_schema "s2"
                             "ZT-1111-2222" "ZT-3333-4444")
                          related_and_invited))) =
    [mkInvite "ZT-1111-2222" "ZT-3333-4444" accepted].
Proof.
  assert (C : friendship_conflict ordered_schema "ZT-1111-2222" "ZT-3333-4444"
                (pool related_and_invited) = true) by reflexivity.
  split; [exact C|].
  exact (proj1 (proj2 (@Part000_acceptInvite_refused ordered_schema "s2"
                         "ZT-1111-2222" "ZT-3333-4444" related_and_invited
                         C))).
Defined.

(** The outcome of [sendMessage], in [server.js] and in the second
    file. *)
Lemma ServerJs_sendMessage_run (socket : SocketId) (now : Z)
    (fromPin toPin : Pin) (message : string) (ttl : Z) (s : Server) :
  run (ServerJs.sendMessage socket now fromPin toPin message ttl) s =
    if AreRelated (pool s) fromPin toPin
    then (mkServer (fst (insert_message fromPin toPin message ttl now (pool s)))
                   (activeUsers s),
          live_push (activeUsers s) toPin
            (messageReceived fromPin message ttl
                             (Some (messages_seq (pool s))))
          ++ [socket_emitted socket (messageSent toPin message)])
    else (s, [socket_emitted socket
                (error (Literal "You must be friends to send messages"))]).
Proof.
  unfold ServerJs.sendMessage, live_push, AreRelated. run_handler.
  destruct (List.length (select_friendship fromPin toPin (pool s)) =? 0)%nat;
    [reflexivity|]. cbn.
  destruct (Map_get (activeUsers s) toPin) as [id|]; cbn; [|reflexivity].
  destruct (id =? "")%string; reflexivity.
Qed.

Lemma Part000_sendMessage_run (socket : SocketId) (now : Z)
    (fromPin toPin : Pin) (message : string) (ttl : Z) (s : Server) :
  run (Part000.sendMessage socket now fromPin toPin message ttl) s =
    if AreRelated (pool s) fromPin toPin
    then (mkServer (fst (insert_message fromPin toPin message ttl now (pool s)))
                   (activeUsers s),
          live_push (activeUsers s) toPin
            (messageReceived fromPin message ttl None)
          ++ [socket_emitted socket (messageSent toPin message)])
    else (s, [socket_emitted socket
                (error (Literal "You must be friends to send messages"))]).
Proof.
  unfold Part000.sendMessage, live_push, AreRelated. run_handler.
  destruct (List.length (select_friendship fromPin toPin (pool s)) =? 0)%nat;
    [reflexivity|]. cbn.
  destruct (Map_get (activeUsers s) toPin) as [id|]; cbn; [|reflexivity].
  destruct (id =? "")%string; reflexivity.
Qed.

Lemma live_push_without_messageId (m : ActiveUsers) (pin : Pin)
    (f msg : string) (ttl : Z) (id : option Z) :
  map without_messageId (live_push m pin (messageReceived f msg ttl id)) =
    live_push m pin (messageReceived f msg ttl None).
Proof.
  unfold live_push. destruct (Map_get m pin) as [i|]; [|reflexivity].
  destruct (i =? "")%string; reflexivity.
Qed.

(** X8. The two files differ in [sendMessage] by the [messageId] alone:
    on every state and payload they leave the same server state, and the
    emissions of the second file are those of [server.js] with the
    [messageId] of the push removed. *)
Theorem sendMessage_files_agree
    (socket : SocketId) (now : Z) (fromPin toPin : Pin) (message : string)
    (ttl : Z) (s : Server) :
  fst (run (Part000.sendMessage socket now fromPin toPin message ttl) s) =
    fst (run (ServerJs.sendMessage socket now fromPin toPin message ttl) s) /\
  snd (run (Part000.sendMessage socket now fromPin toPin message ttl) s) =
    map without_messageId
        (snd (run (ServerJs.sendMessage socket now fromPin toPin message ttl)
                  s)).
Proof.
  rewrite ServerJs_sendMessage_run, Part000_sendMessage_run.
  destruct (AreRelated (pool s) fromPin toPin); cbn [fst snd];
    [|split; reflexivity].
  split; [reflexivity|].
  now rewrite map_app, live_push_without_messageId.
Qed.

(** X9. Where the store raises no conflict the two files agree: an
    [addContact] for a pair without conflicting Invite row, and an
    [acceptInvite] for a pair without conflicting Friendship row, give in
    the second file the state and the emissions they give in
    [server.js]. *)
Theorem files_agree_without_conflict
    (sch : Schema) (socket : SocketId) (fromPin toPin : Pin) (s : Server) :
  (invite_conflict sch fromPin toPin (pool s) = false ->
   run (Part000.addContact sch socket fromPin toPin) s =
     run (ServerJs.addContact sch socket fromPin toPin) s) /\
  (friendship_conflict sch fromPin toPin (pool s) = false ->
   run (Part000.acceptInvite sch socket fromPin toPin) s =
     run (ServerJs.acceptInvite sch socket fromPin toPin) s).
Proof.
  split; intros C.
  - rewrite Part000_addContact_run, ServerJs_addContact_run, C.
    unfold insert_invite_on_conflict_do_nothing. now rewrite C.
  - rewrite Part000_acceptInvite_run, ServerJs_acceptInvite_run, C.
    unfold insert_friendship_on_conflict_do_nothing.
    assert (C' : friendship_conflict sch fromPin toPin
                   (fst (update_invite_status accepted fromPin toPin (pool s)))
                 = false) by exact C.
    now rewrite C'.
Qed.

Lemma files_agree_without_conflict_witness :
  invite_conflict ordered_schema "ZT-1111-2222" "ZT-3333-4444"
    (pool fresh_server) = false /\
  run (Part000.addContact ordered_schema "s1" "ZT-1111-2222" "ZT-3333-4444")
      fresh_server =
    run (ServerJs.addContact ordered_schema "s1" "ZT-1111-2222" "ZT-3333-4444")
        fresh_server.
Proof.
  assert (C : invite_conflict ordered_schema "ZT-1111-2222" "ZT-3333-4444"
                (pool fresh_server) = false) by reflexivity.
  split; [exact C|].
  exact (proj1 (@files_agree_without_conflict ordered_schema "s1"
                  "ZT-1111-2222" "ZT-3333-4444" fresh_server) C).
Defined.

(** X10. An accept needs no invite and opens the gate in both
    directions.  For every schema and every state (an Invite row for the
    pair or none), after [acceptInvite] in either file the pair is
    related in both orderings, and a [sendMessage] in the reverse
    direction, from [toPin] to [fromPin], is persisted as one new row. *)
Theorem accept_opens_the_gate
    (sch : Schema) (acceptor sender : SocketId) (fromPin toPin : Pin)
    (message : string) (ttl now : Z) (s : Server) :
  let js := fst (run (ServerJs.acceptInvite sch acceptor fromPin toPin) s) in
  let p0 := fst (run (Part000.acceptInvite sch acceptor fromPin toPin) s) in
  (AreRelated (pool js) fromPin toPin = true /\
   AreRelated (pool js) toPin fromPin = true /\
   messages (pool (fst (run (ServerJs.sendMessage sender now toPin fromPin
                               message ttl) js))) =
     messages (pool s)
     ++ [mkMessage (messages_seq (pool s)) toPin fromPin message ttl now]) /\
  (AreRelated (pool p0) fromPin toPin = true /\
   AreRelated (pool p0) toPin fromPin = true /\
   messages (pool (fst (run (Part000.sendMessage sender now toPin fromPin
                               message ttl) p0))) =
     messages (pool s)
     ++ [mkMessage (messages_seq (pool s)) toPin fromPin message ttl now]).
Proof.
  intros js p0.
  destruct (acceptInvite_friendships sch acceptor fromPin toPin s) as [Hs Hp].
  fold js in Hs. fold p0 in Hp. cbv zeta in Hs, Hp.
  assert (Rs : AreRelated (pool js) fromPin toPin = true).
  { apply AreRelated_true_iff.
    now apply accept_makes_related with (sch := sch) (d := pool s). }
  assert (Rp : AreRelated (pool p0) fromPin toPin = true).
  { apply AreRelated_true_iff.
    now apply accept_makes_related with (sch := sch) (d := pool s). }
  assert (Sym : forall d, AreRelated d toPin fromPin = AreRelated d fromPin toPin).
  { intros d. unfold AreRelated, select_friendship. do 3 f_equal.
    apply filter_ext. intros f. apply orb_comm. }
  assert (Ms : messages (pool js) = messages (pool s)
               /\ messages_seq (pool js) = messages_seq (pool s)).
  { subst js. rewrite ServerJs_acceptInvite_run. cbn [fst pool].
    unfold insert_friendship_on_conflict_do_nothing, update_invite_status.
    cbn [fst]. destruct (friendship_conflict sch fromPin toPin _); now split. }
  assert (Mp : messages (pool p0) = messages (pool s)
               /\ messages_seq (pool p0) = messages_seq (pool s)).
  { subst p0. rewrite Part000_acceptInvite_run. cbv zeta.
    destruct (friendship_conflict sch fromPin toPin (pool s)); now split. }
  split; (split; [assumption|split; [rewrite Sym; assumption|]]).
  - rewrite ServerJs_sendMessage_run, Sym, Rs. cbn.
    now rewrite (proj1 Ms), (proj2 Ms).
  - rewrite Part000_sendMessage_run, Sym, Rp. cbn.
    now rewrite (proj1 Mp), (proj2 Mp).
Qed.

(** X11. [acceptInvite] in [server.js] never fails.  On every state, with
    an Invite row for the pair or none, related already or not: the
    issuing socket is answered ['inviteAccepted'], after the pushes of
    ['friendAdded'] to the sockets bound to [fromPin] and to [toPin];
    every invite of the ordered pair has status accepted and no invite is
    added or removed; users, messages and the presence map are as
    before. *)
Theorem ServerJs_acceptInvite_outcome
    (sch : Schema) (socket : SocketId) (fromPin toPin : Pin) (s : Server) :
  let s' := fst (run (ServerJs.acceptInvite sch socket fromPin toPin) s) in
  snd (run (ServerJs.acceptInvite sch socket fromPin toPin) s) =
    live_push (activeUsers s) fromPin (friendAdded_toPin toPin)
    ++ live_push (activeUsers s) toPin (friendAdded_fromPin fromPin)
    ++ [socket_emitted socket (inviteAccepted fromPin toPin)] /\
  invites (pool s') = map (accept_invite fromPin toPin) (invites (pool s)) /\
  users (pool s') = users (pool s) /\
  messages (pool s') = messages (pool s) /\
  activeUsers s' = activeUsers s.
Proof.
  intros s'. subst s'. rewrite ServerJs_acceptInvite_run.
  cbn [fst snd pool activeUsers].
  unfold insert_friendship_on_conflict_do_nothing, update_invite_status.
  cbn [fst]. destruct (friendship_conflict sch fromPin toPin _);
    repeat split.
Qed.

(** ** Ids drawn from the sequences *)

Lemma fresh_id_NoDup {A} (id : A -> Z) (l : list A) (x : A) (seq : Z) :
  NoDup (map id l) -> (forall y, In y l -> id y < seq) -> id x = seq ->
  NoDup (map id (l ++ [x])) /\ forall y, In y (l ++ [x]) -> id y < seq + 1.
Proof.
  intros Hnd Hlt Hx. split.
  - rewrite map_app. cbn. apply NoDup_app; [exact Hnd| |].
    + apply NoDup_cons; [intros []|apply NoDup_nil].
    + intros a Ha [E|[]]. subst a.
      apply in_map_iff in Ha. destruct Ha as [y [Hy Hin]].
      specialize (Hlt y Hin). lia.
  - intros y Hy. apply in_app_or in Hy. destruct Hy as [Hy|[<-|[]]].
    + specialize (Hlt y Hy). lia.
    + lia.
Qed.

Lemma map_if_keeps {A B} (key : A -> B) (hit : A -> bool) (put : A -> A)
    (l : list A) :
  (forall x, key (put x) = key x) ->
  map key (map (fun x => if hit x then put x else x) l) = map key l.
Proof.
  intros H. rewrite map_map. apply map_ext. intros x.
  destruct (hit x); [apply H|reflexivity].
Qed.

Lemma in_map_if {A} (hit : A -> bool) (put : A -> A) (l : list A) (y : A) :
  In y (map (fun x => if hit x then put x else x) l) ->
  exists x, In x l /\ (y = x \/ y = put x).
Proof.
  intros H. apply in_map_iff in H. destruct H as [x [E Hin]].
  exists x. split; [exact Hin|]. destruct (hit x); auto.
Qed.

Lemma upsert_user_by_email_ids (zeusPin : Pin) (email : string) (now : Z)
    (d : Db) :
  user_ids_fresh d ->
  user_ids_fresh (fst (upsert_user_by_email zeusPin email now d)).
Proof.
  intros [Hnd Hlt]. unfold upsert_user_by_email, user_ids_fresh.
  destruct (pin_taken zeusPin email d); cbn.
  { split; [exact Hnd|]. intros u Hu. specialize (Hlt u Hu). lia. }
  destruct (existsb _ (users d)); cbn.
  - rewrite map_if_keeps by reflexivity. split; [exact Hnd|].
    intros u Hu. apply in_map_if in Hu. destruct Hu as [x [Hin [->| ->]]];
      cbn; specialize (Hlt x Hin); lia.
  - apply fresh_id_NoDup; auto.
Qed.

Lemma upsert_user_by_pin_ids (zeusPin : Pin) (name email : string) (d : Db) :
  user_ids_fresh d ->
  user_ids_fresh (fst (upsert_user_by_pin zeusPin name email d)).
Proof.
  intros [Hnd Hlt]. unfold upsert_user_by_pin, user_ids_fresh.
  destruct (existsb _ (users d)); cbn.
  - rewrite map_if_keeps by reflexivity. split; [exact Hnd|].
    intros u Hu. apply in_map_if in Hu. destruct Hu as [x [Hin [->| ->]]];
      cbn; specialize (Hlt x Hin); lia.
  - apply fresh_id_NoDup; auto.
Qed.

Lemma update_user_profile_ids (zeusPin : Pin) (name about : string) (d : Db) :
  user_ids_fresh d ->
  user_ids_fresh (fst (update_user_profile zeusPin name about d)).
Proof.
  intros [Hnd Hlt]. unfold update_user_profile, user_ids_fresh. cbn.
  rewrite map_if_keeps by reflexivity. split; [exact Hnd|].
  intros u Hu. apply in_map_if in Hu. destruct Hu as [x [Hin [->| ->]]];
    cbn; specialize (Hlt x Hin); lia.
Qed.

Lemma register_pool (socket : SocketId) (zeusPin : Pin)
    (name about email : string) (s : Server) :
  pool (fst (run (ServerJs.register socket zeusPin name about) s)) =
    fst (update_user_profile zeusPin name about (pool s)) /\
  pool (fst (run (Part000.register socket zeusPin name email) s)) =
    fst (upsert_user_by_pin zeusPin name email (pool s)).
Proof.
  split.
  - unfold ServerJs.register. run_handler. reflexivity.
  - unfold Part000.register. run_handler. unfold upsert_user_by_pin.
    destruct (existsb (has_pin zeusPin) (users (pool s))) eqn:E; cbn.
    + destruct (existsb_filter_cons _ _ E) as [u [rest Hf]].
      rewrite Hf. reflexivity.
    + reflexivity.
Qed.

(** ** One-time codes: expiry, wrong codes, superseded codes *)

Lemma toString_inj (a b : Z) : toString a = toString b -> a = b.
Proof.
  unfold toString. intros H.
  assert (P : forall n,
             NilZero.int_of_string (NilZero.string_of_int (Z.to_int n))
             = Some (Z.to_int n)).
  { intros n. apply NilZero.isi.
    - destruct n; cbn; try discriminate.
      intros E. inversion E. now apply (Unsigned.to_uint_nonnil p).
    - destruct n; cbn; try discriminate.
      intros E. inversion E. now apply (Unsigned.to_uint_nonnil p). }
  apply DecimalZ.to_int_inj.
  pose proof (P a) as Pa. rewrite H, P in Pa. now inversion Pa.
Qed.

(** After an upsert every row of the address carries the new code and
    the new expiry. *)
Lemma upsert_otp_request_rows (email otp : string) (expiresAt : Z) (d : Db)
    (r : OtpRequest) :
  In r (otp_requests (fst (upsert_otp_request email otp expiresAt d))) ->
  otp_email r = email ->
  otp_otp r = otp /\ otp_expires_at r = expiresAt.
Proof.
  unfold upsert_otp_request.
  destruct (existsb _ (otp_requests d)) eqn:E; cbn.
  - intros Hin He. apply in_map_iff in Hin. destruct Hin as [x [Hx Hin]].
    destruct (String.eqb_spec (otp_email x) email) as [Ex|Ex].
    + subst r. now split.
    + subst r. contradiction.
  - intros Hin He. apply in_app_or in Hin. destruct Hin as [Hin|[<-|[]]].
    + exfalso.
      assert (X : existsb (fun r => (otp_email r =? email)%string)
                          (otp_requests d) = true).
      { apply existsb_exists. exists r. split; [exact Hin|].
        now apply String.eqb_eq. }
      congruence.
    + now split.
Qed.

Lemma verifyOTP_refused (socket : SocketId) (now verifiedAt num num2 : Z)
    (email otp : string) (s : Server) :
  ~ otp_valid (pool s) email otp now ->
  run (ServerJs.verifyOTP socket now verifiedAt num num2 email otp) s =
    (s, [invalid_otp socket]).
Proof.
  intros H. rewrite verifyOTP_run.
  destruct (List.length _ =? 0)%nat eqn:E; [reflexivity|].
  apply otp_valid_iff in E. contradiction.
Qed.

(** X12. A code dies with its TTL.  Once [NOW()] has reached the expiry
    that [requestOTP] stored, ten minutes after its [Date.now()], a
    [verifyOTP] with the address and the very code that was issued is
    refused with the ['otpError'] event and changes nothing. *)
Theorem expired_code_refused
    (requester verifier : SocketId) (draw dateNow : Z) (email : string)
    (now verifiedAt num num2 : Z) (s : Server) :
  dateNow + 10 * 60 * 1000 <= now ->
  let issued := fst (run (ServerJs.requestOTP requester draw dateNow email) s) in
  run (ServerJs.verifyOTP verifier now verifiedAt num num2 email
         (toString draw)) issued =
    (issued, [invalid_otp verifier]).
Proof.
  intros Hlate issued. apply verifyOTP_refused.
  intros [r [Hin [He [_ Hlt]]]].
  subst issued. rewrite requestOTP_run in Hin. cbn [fst pool] in Hin.
  apply upsert_otp_request_rows in Hin; [|exact He]. lia.
Qed.

Lemma expired_code_refused_witness :
  0 + 10 * 60 * 1000 <= 600000 /\
  run (ServerJs.verifyOTP "s1" 600000 600001 1234 5678 "a@x.com" "482913")
      (fst (run (ServerJs.requestOTP "s1" 482913 0 "a@x.com") fresh_server)) =
    (fst (run (ServerJs.requestOTP "s1" 482913 0 "a@x.com") fresh_server),
     [invalid_otp "s1"]).
Proof.
  assert (H : 0 + 10 * 60 * 1000 <= 600000) by lia.
  split; [exact H|].
  exact (@expired_code_refused "s1" "s1" 482913 0 "a@x.com" 600000 600001
           1234 5678 fresh_server H).
Defined.

(** X13. A wrong code costs nothing.  After [requestOTP] for an address,
    a [verifyOTP] for that address with any other code is refused with
    the ['otpError'] event and changes nothing, so the issued code is
    still there to be verified. *)
Theorem wrong_code_refused
    (requester verifier : SocketId) (draw dateNow : Z) (email otp : string)
    (now verifiedAt num num2 : Z) (s : Server) :
  otp <> toString draw ->
  let issued := fst (run (ServerJs.requestOTP requester draw dateNow email) s) in
  run (ServerJs.verifyOTP verifier now verifiedAt num num2 email otp) issued =
    (issued, [invalid_otp verifier]) /\
  (now < dateNow + 10 * 60 * 1000 ->
   otp_valid (pool issued) email (toString draw) now).
Proof.
  intros Hne issued. split.
  - apply verifyOTP_refused.
    intros [r [Hin [He [Ho _]]]].
    subst issued. rewrite requestOTP_run in Hin. cbn [fst pool] in Hin.
    apply upsert_otp_request_rows in Hin; [|exact He].
    destruct Hin as [Hotp _]. congruence.
  - intros Hlt. subst issued. rewrite requestOTP_run. cbn [fst pool].
    now apply upsert_otp_request_valid.
Qed.

Lemma wrong_code_refused_witness :
  "482917" <> toString 482913 /\
  run (ServerJs.verifyOTP "s1" 1000 1001 1234 5678 "a@x.com" "482917")
      (fst (run (ServerJs.requestOTP "s1" 482913 0 "a@x.com") fresh_server)) =
    (fst (run (ServerJs.requestOTP "s1" 482913 0 "a@x.com") fresh_server),
     [invalid_otp "s1"]).
Proof.
  assert (H : "482917" <> toString 482913) by (vm_compute; discriminate).
  split; [exact H|].
  exact (proj1 (@wrong_code_refused "s1" "s1" 482913 0 "a@x.com" "482917"
                  1000 1001 1234 5678 fresh_server H)).
Defined.

(** X14. The latest request supersedes.  When a second [requestOTP] for
    the same address draws another code, the first code is refused from
    then on, at any time; the second is verified while its own TTL runs,
    provided the Zeus-PIN drawn for it is not the code of an Identity
    with another address. *)
Theorem latest_code_supersedes
    (requester verifier : SocketId) (draw1 dateNow1 draw2 dateNow2 : Z)
    (email : string) (now verifiedAt num num2 : Z) (s : Server) :
  draw1 <> draw2 ->
  now < dateNow2 + 10 * 60 * 1000 ->
  let issued :=
    fst (run (ServerJs.requestOTP requester draw2 dateNow2 email)
             (fst (run (ServerJs.requestOTP requester draw1 dateNow1 email)
                       s))) in
  (forall now', run (ServerJs.verifyOTP verifier now' verifiedAt num num2
                       email (toString draw1)) issued =
                  (issued, [invalid_otp verifier])) /\
  (~ code_held_by_another (pool s) (generateZeusPIN num num2) email ->
   exists u, snd (run (ServerJs.verifyOTP verifier now verifiedAt num num2
                         email (toString draw2)) issued) =
               [socket_emitted verifier (otpVerified (Some u))]).
Proof.
  intros Hne Hlt issued. split.
  - intros now'. apply verifyOTP_refused.
    intros [r [Hin [He [Ho _]]]].
    subst issued. rewrite requestOTP_run in Hin. cbn [fst pool] in Hin.
    apply upsert_otp_request_rows in Hin; [|exact He].
    destruct Hin as [Hotp _]. apply Hne. apply toString_inj. congruence.
  - intros Hfree. apply verifyOTP_valid_verified.
    + subst issued. rewrite requestOTP_run. cbn [fst pool].
      now apply upsert_otp_request_valid.
    + apply pin_free_iff. intros [u [Hin Hu]]. apply Hfree.
      exists u. split; [|exact Hu].
      subst issued. rewrite !requestOTP_run in Hin. cbn [fst pool] in Hin.
      now rewrite !upsert_otp_request_users in Hin.
Qed.

Lemma latest_code_supersedes_witness :
  482913 <> 771204 /\ 1000 < 500 + 10 * 60 * 1000 /\
  ~ code_held_by_another (pool fresh_server) (generateZeusPIN 1234 5678)
      "a@x.com" /\
  run (ServerJs.verifyOTP "s1" 1000 1001 1234 5678 "a@x.com" "482913")
      (fst (run (ServerJs.requestOTP "s1" 771204 500 "a@x.com")
                (fst (run (ServerJs.requestOTP "s1" 482913 0 "a@x.com")
                          fresh_server)))) =
    (fst (run (ServerJs.requestOTP "s1" 771204 500 "a@x.com")
              (fst (run (ServerJs.requestOTP "s1" 482913 0 "a@x.com")
                        fresh_server))),
     [invalid_otp "s1"]) /\
  exists u,
    snd (run (ServerJs.verifyOTP "s1" 1000 1001 1234 5678 "a@x.com" "771204")
             (fst (run (ServerJs.requestOTP "s1" 771204 500 "a@x.com")
                       (fst (run (ServerJs.requestOTP "s1" 482913 0 "a@x.com")
                                 fresh_server))))) =
      [socket_emitted "s1" (otpVerified (Some u))].
Proof.
  assert (H1 : 482913 <> 771204) by discriminate.
  assert (H2 : 1000 < 500 + 10 * 60 * 1000) by lia.
  assert (H3 : ~ code_held_by_another (pool fresh_server)
                   (generateZeusPIN 1234 5678) "a@x.com").
  { apply pin_free_iff. reflexivity. }
  split; [exact H1|]. split; [exact H2|]. split; [exact H3|].
  destruct (@latest_code_supersedes "s1" "s1" 482913 0 771204 500
              "a@x.com" 1000 1001 1234 5678 fresh_server H1 H2) as [R V].
  split; [exact (R 1000)|exact (V H3)].
Defined.

Lemma upsert_codes_of (email otp : string) (expiresAt : Z)
    (l : list OtpRequest) :
  NoDup (map otp_email l) ->
  filter (fun r => (otp_email r =? email)%string)
         (map (fun r => if (otp_email r =? email)%string
                        then mkOtpRequest (otp_email r) otp expiresAt else r)
              l) =
    if existsb (fun r => (otp_email r =? email)%string) l
    then [mkOtpRequest email otp expiresAt] else [].
Proof.
  induction l as [|x l IH]; cbn; [reflexivity|].
  intros Hnd. apply NoDup_cons_iff in Hnd. destruct Hnd as [Hnot Hnd].
  specialize (IH Hnd).
  destruct (otp_email x =? email)%string eqn:E; cbn; rewrite E.
  - apply String.eqb_eq in E.
    assert (X : existsb (fun r => (otp_email r =? email)%string) l = false).
    { apply not_true_is_false. intros T. apply existsb_exists in T.
      destruct T as [r [Hin Hr]]. apply String.eqb_eq in Hr.
      apply Hnot. apply in_map_iff. exists r. split; [congruence|exact Hin]. }
    rewrite X in IH. rewrite IH. now rewrite E.
  - exact IH.
Qed.

Lemma upsert_other_addresses (email otp : string) (expiresAt : Z)
    (l : list OtpRequest) :
  filter (fun r => negb (otp_email r =? email)%string)
         (map (fun r => if (otp_email r =? email)%string
                        then mkOtpRequest (otp_email r) otp expiresAt else r)
              l) =
    filter (fun r => negb (otp_email r =? email)%string) l.
Proof.
  induction l as [|x l IH]; cbn; [reflexivity|].
  destruct (otp_email x =? email)%string eqn:E; cbn; rewrite E; cbn;
    now rewrite IH.
Qed.

(** X15. [requestOTP] keeps one code per address.  On a store with at
    most one [otp_requests] row per address, after a request the address
    has exactly one row, carrying the new code and an expiry ten minutes
    after [Date.now()]; the rows of every other address are untouched;
    the socket is answered ['otpSent'], and neither [users] nor the
    presence map changes. *)
Theorem requestOTP_one_code_per_address
    (socket : SocketId) (draw dateNow : Z) (email : string) (s : Server) :
  one_code_per_address (pool s) ->
  let s' := fst (run (ServerJs.requestOTP socket draw dateNow email) s) in
  one_code_per_address (pool s') /\
  codes_of email (pool s') =
    [mkOtpRequest email (toString draw) (dateNow + 10 * 60 * 1000)] /\
  other_addresses email (pool s') = other_addresses email (pool s) /\
  snd (run (ServerJs.requestOTP socket draw dateNow email) s) =
    [socket_emitted socket (otpSent email)] /\
  users (pool s') = users (pool s) /\
  activeUsers s' = activeUsers s.
Proof.
  intros Hnd s'. subst s'. rewrite requestOTP_run.
  cbn [fst snd pool activeUsers].
  unfold one_code_per_address, codes_of, other_addresses, upsert_otp_request
    in *.
  destruct (existsb _ (otp_requests (pool s))) eqn:E; cbn.
  - rewrite map_if_keeps by reflexivity.
    rewrite upsert_codes_of by exact Hnd. rewrite E.
    rewrite upsert_other_addresses. repeat split. exact Hnd.
  - rewrite map_app, !filter_app. cbn. rewrite String.eqb_refl. cbn.
    rewrite (existsb_false_filter_nil _ _ E), app_nil_r.
    repeat split.
    apply NoDup_app; [exact Hnd| |].
    + apply NoDup_cons; [intros []|apply NoDup_nil].
    + intros a Ha [<-|[]]. apply in_map_iff in Ha.
      destruct Ha as [r [Hr Hin]].
      assert (X : existsb (fun r => (otp_email r =? email)%string)
                          (otp_requests (pool s)) = true).
      { apply existsb_exists. exists r. split; [exact Hin|].
        now apply String.eqb_eq. }
      congruence.
Qed.

Lemma requestOTP_one_code_per_address_witness :
  one_code_per_address (pool code_waiting) /\
  codes_of "a@x.com"
    (pool (fst (run (ServerJs.requestOTP "s1" 771204 500 "a@x.com")
                    code_waiting))) =
    [mkOtpRequest "a@x.com" "771204" 600500].
Proof.
  assert (H : one_code_per_address (pool code_waiting)).
  { unfold one_code_per_address. cbn.
    apply NoDup_cons; [intros []|apply NoDup_nil]. }
  split; [exact H|].
  exact (proj1 (proj2 (@requestOTP_one_code_per_address "s1" 771204 500
                         "a@x.com" code_waiting H))).
Defined.

(** ** The Identity that a verification issues *)

(** X16. A verification issues the Identity of the address and rotates
    its code.  When the code is valid and the generated Zeus-PIN is not
    the code of an Identity with another address, the user in
    ['otpVerified'] is a row of [users] with the verified address, the
    generated Zeus-PIN and the verification time; afterwards every row
    with that address carries the generated Zeus-PIN, whatever code it
    had.  An address that had a row keeps the number of rows; a new
    address adds one row under the sequence value.  No code is left
    waiting for the address, and the presence map is untouched: verifying
    binds no socket. *)
Theorem verifyOTP_issues_identity
    (socket : SocketId) (now verifiedAt num num2 : Z)
    (email otp : string) (s : Server) :
  otp_valid (pool s) email otp now ->
  ~ code_held_by_another (pool s) (generateZeusPIN num num2) email ->
  let zeusPin := generateZeusPIN num num2 in
  let s' := fst (run (ServerJs.verifyOTP socket now verifiedAt num num2
                        email otp) s) in
  (exists u,
     snd (run (ServerJs.verifyOTP socket now verifiedAt num num2 email otp) s)
       = [socket_emitted socket (otpVerified (Some u))] /\
     In u (users (pool s')) /\
     user_email u = Some email /\ user_zeus_pin u = zeusPin /\
     user_verified_at u = Some verifiedAt) /\
  (forall v, In v (users (pool s')) -> user_email v = Some email ->
             user_zeus_pin v = zeusPin) /\
  (existsb (has_email email) (users (pool s)) = true ->
   List.length (users (pool s')) = List.length (users (pool s))) /\
  (existsb (has_email email) (users (pool s)) = false ->
   users (pool s') =
     users (pool s)
     ++ [mkUser (users_seq (pool s)) zeusPin (Some email) None None
                (Some verifiedAt)]) /\
  codes_of email (pool s') = [] /\
  activeUsers s' = activeUsers s.
Proof.
  intros Hv Hfree zeusPin s'. subst s'.
  apply pin_free_iff in Hfree. fold zeusPin in Hfree.
  apply otp_valid_iff in Hv. rewrite verifyOTP_run, Hv. cbv zeta.
  fold zeusPin.
  assert (Gone : codes_of email
                   (fst (delete_otp_request email
                           (fst (upsert_user_by_email zeusPin email
                                   verifiedAt (pool s))))) = []).
  { unfold codes_of. rewrite otp_requests_after_verify.
    induction (otp_requests (pool s)) as [|r l IH]; cbn; [reflexivity|].
    destruct (otp_email r =? email)%string eqn:E; cbn; [exact IH|].
    now rewrite E. }
  unfold upsert_user_by_email in *. rewrite Hfree in *.
  fold (has_email email) in *.
  destruct (existsb (has_email email) (users (pool s))) eqn:E;
    cbn [fst snd pool activeUsers delete_otp_request set_otp_requests users
         set_users] in *.
  - destruct (existsb_filter_cons _ _ E) as [x [rest Hf]].
    assert (Hx : In x (users (pool s)) /\ has_email email x = true).
    { apply filter_In. rewrite Hf. now left. }
    destruct Hx as [Hin Hhit].
    repeat split; try discriminate; try exact Gone.
    + rewrite Hf. cbn.
      eexists. split; [reflexivity|]. cbn. repeat split.
      * apply in_map_iff. exists x. unfold has_email in Hhit.
        now rewrite Hhit.
      * unfold has_email, column_is in Hhit.
        destruct (user_email x) as [e|]; [|discriminate].
        apply String.eqb_eq in Hhit. now subst e.
    + intros v Hv' He. apply in_map_iff in Hv'.
      destruct Hv' as [y [Hy _]].
      destruct (column_is (user_email y) email) eqn:Y; subst v;
        [reflexivity|].
      unfold column_is in Y. rewrite He in Y.
      now rewrite String.eqb_refl in Y.
    + intros _. now rewrite length_map.
  - repeat split; try discriminate; try exact Gone.
    + eexists. split; [reflexivity|]. cbn. repeat split.
      apply in_or_app. right. now left.
    + intros v Hv' He. apply in_app_or in Hv'.
      destruct Hv' as [Hv'|[<-|[]]]; [|reflexivity].
      exfalso.
      assert (X : existsb (has_email email) (users (pool s)) = true).
      { apply existsb_exists. exists v. split; [exact Hv'|].
        unfold has_email, column_is. rewrite He. apply String.eqb_refl. }
      congruence.
Qed.

Lemma verifyOTP_issues_identity_witness :
  otp_valid (pool code_waiting) "a@x.com" "482913" 1000 /\
  ~ code_held_by_another (pool code_waiting) (generateZeusPIN 1234 5678)
      "a@x.com" /\
  forall v,
    In v (users (pool (fst (run (ServerJs.verifyOTP "s1" 1000 1001 1234 5678
                                   "a@x.com" "482913") code_waiting)))) ->
    user_email v = Some "a@x.com" -> user_zeus_pin v = "ZT-1234-5678".
Proof.
  assert (H : otp_valid (pool code_waiting) "a@x.com" "482913" 1000).
  { apply otp_valid_iff. reflexivity. }
  assert (F : ~ code_held_by_another (pool code_waiting)
                  (generateZeusPIN 1234 5678) "a@x.com").
  { apply pin_free_iff. reflexivity. }
  split; [exact H|]. split; [exact F|].
  exact (proj1 (proj2 (@verifyOTP_issues_identity "s1" 1000 1001 1234 5678
                         "a@x.com" "482913" code_waiting H F))).
Defined.

(** ** The three outcomes of a verification *)

(** X28. What [verifyOTP] answers, and when.  The answer is the
    ['otpError'] event, with the state untouched, exactly when no
    OneTimeCode row has the address, the code supplied and an expiry
    after [NOW()].  It is an ['error'] event with the message of the
    store exactly when the code is valid and the generated Zeus-PIN is
    the code of an Identity with another address; the OneTimeCode rows,
    the [users] rows and the presence map are then as before, and the
    sequence of [users] has advanced by one.  It is ['otpVerified'] with
    a user exactly when the code is valid and the generated Zeus-PIN is
    free. *)
Theorem verifyOTP_outcomes
    (socket : SocketId) (now verifiedAt num num2 : Z)
    (email otp : string) (s : Server) :
  let zeusPin := generateZeusPIN num num2 in
  let res := run (ServerJs.verifyOTP socket now verifiedAt num num2
                    email otp) s in
  (~ otp_valid (pool s) email otp now <-> res = (s, [invalid_otp socket])) /\
  (otp_valid (pool s) email otp now /\
   code_held_by_another (pool s) zeusPin email <->
   snd res = [socket_emitted socket
                (error (err_message (unique_violation "users")))]) /\
  (otp_valid (pool s) email otp now /\
   ~ code_held_by_another (pool s) zeusPin email <->
   exists u, snd res = [socket_emitted socket (otpVerified (Some u))]) /\
  (otp_valid (pool s) email otp now ->
   code_held_by_another (pool s) zeusPin email ->
   otp_requests (pool (fst res)) = otp_requests (pool s) /\
   users (pool (fst res)) = users (pool s) /\
   users_seq (pool (fst res)) = users_seq (pool s) + 1 /\
   activeUsers (fst res) = activeUsers s).
Proof.
  intros zeusPin res. subst res. rewrite verifyOTP_run, otp_valid_iff.
  fold zeusPin. rewrite <- pin_taken_iff.
  destruct (List.length (select_otp_request email otp now (pool s)) =? 0)%nat.
  { unfold invalid_otp. cbn [snd].
    split; [|split; [|split]].
    - split; [reflexivity|discriminate].
    - split; [intros [H _]|intros H]; discriminate.
    - split; [intros [H _]|intros [u H]]; discriminate.
    - discriminate. }
  cbv zeta. destruct (pin_taken zeusPin email (pool s)) eqn:T.
  - rewrite (@upsert_user_by_email_thrown _ _ verifiedAt _ T). cbn.
    split; [|split; [|split]].
    + split; [intros H; now contradiction H|].
      intros H. apply (f_equal snd) in H. discriminate.
    + split; [reflexivity|]. now split.
    + split; [intros [_ H]; now contradiction H|].
      intros [u H]. discriminate.
    + now repeat split.
  - destruct (@upsert_user_by_email_returns _ _ verifiedAt _ T)
      as [u [rest Hu]].
    rewrite Hu. cbn [snd hd_error].
    split; [|split; [|split]].
    + split; [intros H; now contradiction H|].
      intros H. apply (f_equal snd) in H. discriminate.
    + split; [intros [_ H]|intros H]; discriminate.
    + split; [intros _; now exists u|]. split; [reflexivity|discriminate].
    + discriminate.
Qed.

Lemma verifyOTP_outcomes_witness :
  otp_valid (pool code_issued) "a@x.com" "482913" 1000 /\
  code_held_by_another (pool code_issued) (generateZeusPIN 1111 2222)
    "a@x.com" /\
  users_seq
    (pool (fst (run (ServerJs.verifyOTP "s1" 1000 1001 1111 2222
                       "a@x.com" "482913") code_issued))) =
    users_seq (pool code_issued) + 1.
Proof.
  assert (V : otp_valid (pool code_issued) "a@x.com" "482913" 1000).
  { apply otp_valid_iff. reflexivity. }
  assert (T : code_held_by_another (pool code_issued)
                (generateZeusPIN 1111 2222) "a@x.com").
  { apply pin_taken_iff. reflexivity. }
  split; [exact V|]. split; [exact T|].
  exact (proj1 (proj2 (proj2
           (proj2 (proj2 (proj2
              (@verifyOTP_outcomes "s1" 1000 1001 1111 2222 "a@x.com"
                 "482913" code_issued))) V T)))).
Defined.

(** X29. A code that has verified is spent.  Whenever [verifyOTP]
    answers ['otpVerified'], no OneTimeCode row of the address is left,
    and every later [verifyOTP] for the address, with this code or any
    other, at any time and from any socket, changes nothing and answers
    the ['otpError'] event. *)
Theorem verified_code_is_consumed
    (verifier again : SocketId) (email otp otp' : string)
    (now verifiedAt num num2 now' verifiedAt' num' num2' : Z)
    (user : option User) (s : Server) :
  let first := run (ServerJs.verifyOTP verifier now verifiedAt num num2
                      email otp) s in
  snd first = [socket_emitted verifier (otpVerified user)] ->
  (forall r, In r (otp_requests (pool (fst first))) -> otp_email r <> email) /\
  run (ServerJs.verifyOTP again now' verifiedAt' num' num2' email otp')
      (fst first) =
    (fst first, [invalid_otp again]).
Proof.
  intros first Hok.
  assert (Hgone : forall r, In r (otp_requests (pool (fst first))) ->
                            otp_email r <> email).
  { subst first. rewrite verifyOTP_run in *.
    destruct (List.length (select_otp_request email otp now (pool s)) =? 0)%nat;
      [discriminate|].
    cbv zeta in *.
    destruct (snd (upsert_user_by_email _ email verifiedAt (pool s)));
      [|discriminate].
    cbn [fst pool]. rewrite otp_requests_after_verify.
    intros r Hr. apply filter_In in Hr. destruct Hr as [_ Hr].
    apply negb_true_iff in Hr. intros He. apply String.eqb_eq in He.
    congruence. }
  split; [exact Hgone|].
  apply no_row_not_valid with (otp := otp') (now := now') in Hgone.
  rewrite verifyOTP_run.
  destruct (List.length _ =? 0)%nat eqn:E; [reflexivity|].
  apply otp_valid_iff in E. contradiction.
Qed.

Lemma verified_code_is_consumed_witness :
  snd (run (ServerJs.verifyOTP "s1" 1000 1001 1234 5678 "a@x.com" "482913")
           code_issued) =
    [socket_emitted "s1"
       (otpVerified
          (Some (mkUser 3 "ZT-1234-5678" (Some "a@x.com") None None
                        (Some 1001))))] /\
  run (ServerJs.verifyOTP "s2" 2000 2001 1111 2222 "a@x.com" "482913")
      (fst (run (ServerJs.verifyOTP "s1" 1000 1001 1234 5678
                   "a@x.com" "482913") code_issued)) =
    (fst (run (ServerJs.verifyOTP "s1" 1000 1001 1234 5678
                 "a@x.com" "482913") code_issued),
     [invalid_otp "s2"]).
Proof.
  assert (H : snd (run (ServerJs.verifyOTP "s1" 1000 1001 1234 5678
                          "a@x.com" "482913") code_issued) =
              [socket_emitted "s1"
                 (otpVerified
                    (Some (mkUser 3 "ZT-1234-5678" (Some "a@x.com") None None
                                  (Some 1001))))]) by reflexivity.
  split; [exact H|].
  exact (proj2 (@verified_code_is_consumed "s1" "s2" "a@x.com" "482913"
                  "482913" 1000 1001 1234 5678 2000 2001 1111 2222 _
                  code_issued H)).
Defined.

(** ** Zeus-PINs *)

Lemma holds_from_spec (f : Z -> bool) (n : nat) (from x : Z) :
  holds_from f from n = true ->
  from <= x < from + Z.of_nat n -> f x = true.
Proof.
  revert from. induction n as [|k IH]; intros from H Hx; [lia|].
  cbn in H. apply andb_true_iff in H. destruct H as [H0 Hk].
  destruct (Z.eq_dec x from) as [->|Hne]; [exact H0|].
  apply (IH (from + 1)); [exact Hk|lia].
Qed.

Lemma four_digit_draw_prints (n : Z) :
  four_digit_draw n -> four_digits (toString n) = true.
Proof.
  intros H.
  apply holds_from_spec
    with (f := fun n => four_digits (toString n))
         (from := 1000) (n := Z.to_nat 9000).
  - vm_compute. reflexivity.
  - unfold four_digit_draw in H. rewrite Z2Nat.id by lia. lia.
Qed.

Lemma four_digits_inv (s : string) :
  four_digits s = true ->
  exists a b c d,
    s = String a (String b (String c (String d EmptyString))) /\
    is_digit a = true /\ is_digit b = true /\
    is_digit c = true /\ is_digit d = true.
Proof.
  unfold four_digits. intros H. apply andb_true_iff in H.
  destruct H as [Hl Hd]. apply Nat.eqb_eq in Hl.
  destruct s as [|a [|b [|c [|d [|e r]]]]]; try discriminate.
  cbn in Hd. rewrite !andb_true_iff in Hd.
  exists a, b, c, d. tauto.
Qed.

(** X17. Every generated Zeus-PIN has the documented shape.  For draws in
    the range of [Math.floor(1000 + Math.random() * 9000)],
    [generateZeusPIN] returns twelve characters: [ZT-], four decimal
    digits, a dash, four decimal digits. *)
Theorem generateZeusPIN_format (num num2 : Z) :
  four_digit_draw num -> four_digit_draw num2 ->
  is_zeus_pin (generateZeusPIN num num2) = true.
Proof.
  intros H1 H2.
  apply four_digit_draw_prints, four_digits_inv in H1, H2.
  destruct H1 as [a [b [c [d [E1 [Da [Db [Dc Dd]]]]]]]].
  destruct H2 as [e [f [g [h [E2 [De [Df [Dg Dh]]]]]]]].
  unfold generateZeusPIN. rewrite E1, E2.
  unfold is_zeus_pin. cbn.
  now rewrite Da, Db, Dc, Dd, De, Df, Dg, Dh.
Qed.

Lemma generateZeusPIN_format_witness :
  four_digit_draw 1000 /\ four_digit_draw 9999 /\
  is_zeus_pin (generateZeusPIN 1000 9999) = true.
Proof.
  assert (H1 : four_digit_draw 1000) by (unfold four_digit_draw; lia).
  assert (H2 : four_digit_draw 9999) by (unfold four_digit_draw; lia).
  split; [exact H1|]. split; [exact H2|].
  exact (@generateZeusPIN_format 1000 9999 H1 H2).
Defined.

(** X18. Distinct draws give distinct Zeus-PINs: on the range of the
    draws, [generateZeusPIN] is injective, so two generated codes
    collide only when both pairs of draws are the same. *)
Theorem generateZeusPIN_injective (num num2 num' num2' : Z) :
  four_digit_draw num -> four_digit_draw num2 ->
  four_digit_draw num' -> four_digit_draw num2' ->
  num <> num' \/ num2 <> num2' ->
  generateZeusPIN num num2 <> generateZeusPIN num' num2'.
Proof.
  intros H1 H2 H3 H4 Hne E.
  pose proof (four_digits_inv _ (four_digit_draw_prints H1))
    as [a1 [b1 [c1 [d1 [E1 _]]]]].
  pose proof (four_digits_inv _ (four_digit_draw_prints H2))
    as [a2 [b2 [c2 [d2 [E2 _]]]]].
  pose proof (four_digits_inv _ (four_digit_draw_prints H3))
    as [a3 [b3 [c3 [d3 [E3 _]]]]].
  pose proof (four_digits_inv _ (four_digit_draw_prints H4))
    as [a4 [b4 [c4 [d4 [E4 _]]]]].
  unfold generateZeusPIN in E. rewrite E1, E2, E3, E4 in E. cbn in E.
  inversion E; subst.
  destruct Hne as [Hne|Hne]; apply Hne; apply toString_inj; congruence.
Qed.

Lemma generateZeusPIN_injective_witness :
  four_digit_draw 1234 /\ four_digit_draw 5678 /\ four_digit_draw 5679 /\
  (1234 <> 1234 \/ 5678 <> 5679) /\
  generateZeusPIN 1234 5678 <> generateZeusPIN 1234 5679.
Proof.
  assert (H1 : four_digit_draw 1234) by (unfold four_digit_draw; lia).
  assert (H2 : four_digit_draw 5678) by (unfold four_digit_draw; lia).
  assert (H3 : four_digit_draw 5679) by (unfold four_digit_draw; lia).
  assert (N : 1234 <> 1234 \/ 5678 <> 5679) by (right; discriminate).
  split; [exact H1|]. split; [exact H2|]. split; [exact H3|].
  split; [exact N|].
  exact (@generateZeusPIN_injective 1234 5678 1234 5679 H1 H2 H1 H3 N).
Defined.

(** ** Sequences of actions *)

Lemma insert_message_ids (fromPin toPin : Pin) (content : string)
    (ttl now : Z) (d : Db) :
  message_ids_fresh d ->
  message_ids_fresh (fst (insert_message fromPin toPin content ttl now d)).
Proof.
  intros [Hnd Hlt]. unfold message_ids_fresh, insert_message. cbn.
  apply fresh_id_NoDup; auto.
Qed.

(** Dropping rows keeps a key column free of duplicates. *)
Lemma filter_keeps_distinct {Row Key} (key : Row -> Key) (keep : Row -> bool) :
  forall rows : list Row,
    NoDup (map key rows) -> NoDup (map key (filter keep rows)).
Proof.
  intros rows. induction rows as [|r rows IH]; cbn; intros Hnd; [exact Hnd|].
  apply NoDup_cons_iff in Hnd. destruct Hnd as [Hfresh Hrest].
  destruct (keep r); cbn; [|exact (IH Hrest)].
  apply NoDup_cons; [|exact (IH Hrest)].
  intros Hin. apply Hfresh. apply in_map_iff in Hin.
  destruct Hin as [r' [Hkey Hin]]. apply filter_In in Hin.
  apply in_map_iff. exists r'. tauto.
Qed.

Lemma upsert_otp_request_one_code (email otp : string) (expiresAt : Z)
    (d : Db) :
  one_code_per_address d ->
  one_code_per_address (fst (upsert_otp_request email otp expiresAt d)).
Proof.
  unfold one_code_per_address, upsert_otp_request. intros Hnd.
  destruct (existsb _ (otp_requests d)) eqn:E; cbn.
  - now rewrite map_if_keeps by reflexivity.
  - rewrite map_app. cbn. apply NoDup_app; [exact Hnd| |].
    + apply NoDup_cons; [intros []|apply NoDup_nil].
    + intros a Ha [<-|[]]. apply in_map_iff in Ha.
      destruct Ha as [r [Hr Hin]].
      assert (X : existsb (fun r => (otp_email r =? email)%string)
                          (otp_requests d) = true).
      { apply existsb_exists. exists r. split; [exact Hin|].
        now apply String.eqb_eq. }
      congruence.
Qed.

Lemma disconnect_distinct (socket : SocketId) (m : ActiveUsers) :
  distinct_keys m -> distinct_keys (disconnect_loop m socket m).
Proof.
  intros H. rewrite disconnect_loop_first_binding.
  destruct (first_binding socket m); [now apply Map_delete_distinct|exact H].
Qed.

(** Solves the goals about a part of the state that the action at hand
    does not write. *)
Ltac untouched :=
  solve [ assumption
        | unfold message_ids_fresh, user_ids_fresh, one_code_per_address,
            insert_invite_on_conflict_do_nothing,
            insert_friendship_on_conflict_do_nothing, update_invite_status,
            insert_message, delete_otp_request, upsert_user_by_email,
            upsert_user_by_pin, update_user_profile, upsert_otp_request in *;
          repeat match goal with
                 | |- context [if ?c then _ else _] => destruct c
                 end;
          cbn in *; assumption ].

Ltac four_parts := split; [|split; [|split]].

Lemma ServerJs_step_well_formed (sch : Schema) (socket : SocketId)
    (env : Env) (a : Action) (s : Server) :
  well_formed s ->
  well_formed (fst (run (ServerJs_on sch socket env a) s)).
Proof.
  intros [Hk [Hm [Hu Hc]]]. unfold well_formed.
  destruct a; cbn [ServerJs_on].
  - rewrite requestOTP_run. cbn [fst pool activeUsers].
    four_parts; try untouched.
    now apply upsert_otp_request_one_code.
  - rewrite verifyOTP_run.
    destruct (List.length _ =? 0)%nat; [tauto|].
    cbv zeta. destruct (snd (upsert_user_by_email _ _ _ _));
      cbn [fst pool activeUsers].
    + four_parts; try untouched.
      * now apply upsert_user_by_email_ids.
      * unfold one_code_per_address. rewrite otp_requests_after_verify.
        now apply filter_keeps_distinct.
    + four_parts; try untouched.
      now apply upsert_user_by_email_ids.
  - rewrite (proj1 (register_activeUsers socket zeusPin name about "" s)).
    rewrite (proj1 (register_pool socket zeusPin name about "" s)).
    four_parts; try untouched.
    + now apply Map_set_NoDup.
    + now apply update_user_profile_ids.
  - rewrite ServerJs_addContact_run.
    destruct (List.length _ =? 0)%nat; [tauto|].
    cbn [fst pool activeUsers]. four_parts; untouched.
  - rewrite ServerJs_acceptInvite_run. cbn [fst pool activeUsers].
    four_parts; untouched.
  - rewrite ServerJs_sendMessage_run.
    destruct (AreRelated (pool s) fromPin toPin); [|tauto].
    cbn [fst pool activeUsers]. four_parts; try untouched.
    now apply insert_message_ids.
  - unfold disconnect, run. cbn [fst pool activeUsers].
    four_parts; try untouched. now apply disconnect_distinct.
Qed.

Lemma Part000_step_well_formed (sch : Schema) (socket : SocketId)
    (env : Env) (a : Action) (s : Server) :
  well_formed s ->
  well_formed (fst (run (Part000_on sch socket env a) s)).
Proof.
  intros [Hk [Hm [Hu Hc]]]. unfold well_formed.
  destruct a; cbn [Part000_on].
  - cbn. tauto.
  - cbn. tauto.
  - rewrite (proj2 (register_activeUsers socket zeusPin name "" email s)).
    rewrite (proj2 (register_pool socket zeusPin name "" email s)).
    four_parts; try untouched.
    + now apply Map_set_NoDup.
    + now apply upsert_user_by_pin_ids.
  - rewrite Part000_addContact_run.
    destruct (List.length _ =? 0)%nat; [tauto|].
    destruct (invite_conflict sch fromPin toPin (pool s)); [tauto|].
    cbn [fst pool activeUsers]. four_parts; untouched.
  - rewrite Part000_acceptInvite_run. cbv zeta.
    destruct (friendship_conflict sch fromPin toPin (pool s));
      cbn [fst pool activeUsers]; four_parts; untouched.
  - rewrite Part000_sendMessage_run.
    destruct (AreRelated (pool s) fromPin toPin); [|tauto].
    cbn [fst pool activeUsers]. four_parts; try untouched.
    now apply insert_message_ids.
  - unfold disconnect, run. cbn [fst pool activeUsers].
    four_parts; try untouched. now apply disconnect_distinct.
Qed.

Lemma handle_all_invariant (on : SocketId -> Env -> Action -> M unit)
    (P : Server -> Prop) :
  (forall socket env a s, P s -> P (fst (run (on socket env a) s))) ->
  forall trace s, P s -> P (fst (handle_all on trace s)).
Proof.
  intros Hstep trace.
  induction trace as [|[[socket env] a] rest IH]; intros s Hs; [exact Hs|].
  cbn. specialize (Hstep socket env a s Hs).
  destruct (run (on socket env a) s) as [s1 out1]. cbn in Hstep.
  specialize (IH s1 Hstep).
  destruct (handle_all on rest s1) as [s2 out2]. exact IH.
Qed.

(** X19. Well-formedness is kept along every sequence of actions.  From
    a state where the presence map holds each code once, message ids and
    user ids are distinct and below their sequences, and each address has
    at most one code waiting, any sequence of actions handled one after
    the other, from any sockets, in either file and under any schema,
    leads to a state where all of that holds again; the server as it
    starts, with empty tables and nobody online, is such a state. *)
Theorem well_formed_along_traces
    (sch : Schema) (trace : list (SocketId * Env * Action)) (s : Server) :
  well_formed s ->
  well_formed (fst (handle_all (ServerJs_on sch) trace s)) /\
  well_formed (fst (handle_all (Part000_on sch) trace s)).
Proof.
  intros I. split.
  - apply handle_all_invariant; [|exact I].
    intros socket env a s0. apply ServerJs_step_well_formed.
  - apply handle_all_invariant; [|exact I].
    intros socket env a s0. apply Part000_step_well_formed.
Qed.

Lemma well_formed_along_traces_witness :
  well_formed initial /\
  well_formed (fst (handle_all (ServerJs_on ordered_schema) full_flow initial)).
Proof.
  assert (I : well_formed initial).
  { unfold well_formed, distinct_keys, message_ids_fresh, user_ids_fresh,
      one_code_per_address. cbn.
    repeat split; try apply NoDup_nil; intros x []. }
  split; [exact I|].
  exact (proj1 (@well_formed_along_traces ordered_schema full_flow initial I)).
Defined.

Lemma ServerJs_step_frame (sch : Schema) (socket : SocketId) (env : Env)
    (a : Action) (t : Table) (s : Server) :
  ServerJs_writes a t = false ->
  table_same t (pool s) (pool (fst (run (ServerJs_on sch socket env a) s))).
Proof.
  destruct a; cbn [ServerJs_on].
  - rewrite requestOTP_run. unfold upsert_otp_request.
    destruct (existsb _ (otp_requests (pool s)));
      destruct t; cbn; intros H; try discriminate; auto.
  - rewrite verifyOTP_run.
    destruct (List.length _ =? 0)%nat;
      [destruct t; cbn; intros H; try discriminate; auto|].
    unfold upsert_user_by_email, delete_otp_request.
    destruct (pin_taken _ email (pool s));
      [|destruct (existsb _ (users (pool s)))];
      destruct t; cbn; intros H; try discriminate; auto.
  - rewrite (proj1 (register_pool socket zeusPin name about "" s)).
    destruct t; cbn; intros H; try discriminate; auto.
  - rewrite ServerJs_addContact_run.
    destruct (List.length _ =? 0)%nat;
      [destruct t; cbn; intros H; try discriminate; auto|].
    unfold insert_invite_on_conflict_do_nothing.
    destruct (invite_conflict sch fromPin toPin (pool s));
      destruct t; cbn; intros H; try discriminate; auto.
  - rewrite ServerJs_acceptInvite_run.
    unfold insert_friendship_on_conflict_do_nothing, update_invite_status.
    cbn [fst]. destruct (friendship_conflict sch fromPin toPin _);
      destruct t; cbn; intros H; try discriminate; auto.
  - rewrite ServerJs_sendMessage_run.
    destruct (AreRelated (pool s) fromPin toPin);
      destruct t; cbn; intros H; try discriminate; auto.
  - destruct t; cbn; auto.
Qed.

Lemma Part000_step_frame (sch : Schema) (socket : SocketId) (env : Env)
    (a : Action) (t : Table) (s : Server) :
  Part000_writes a t = false ->
  table_same t (pool s) (pool (fst (run (Part000_on sch socket env a) s))).
Proof.
  destruct a; cbn [Part000_on Part000_writes].
  - destruct t; cbn; auto.
  - destruct t; cbn; auto.
  - rewrite (proj2 (register_pool socket zeusPin name "" email s)).
    unfold upsert_user_by_pin.
    destruct (existsb _ (users (pool s)));
      destruct t; cbn; intros H; try discriminate; auto.
  - rewrite Part000_addContact_run.
    destruct (List.length _ =? 0)%nat;
      [destruct t; cbn; intros H; try discriminate; auto|].
    destruct (invite_conflict sch fromPin toPin (pool s));
      destruct t; cbn; intros H; try discriminate; auto.
  - rewrite Part000_acceptInvite_run. cbv zeta.
    destruct (friendship_conflict sch fromPin toPin (pool s));
      destruct t; cbn; intros H; try discriminate; auto.
  - rewrite Part000_sendMessage_run.
    destruct (AreRelated (pool s) fromPin toPin);
      destruct t; cbn; intros H; try discriminate; auto.
  - destruct t; cbn; auto.
Qed.

(** X20. Each handler writes only its own tables.  In both files, for
    every action and every table that the action's handler has no
    statement for, the rows of the table and its sequence are the same
    after the action as before.  A disconnect has a statement for no
    table, and neither have ['requestOTP'] and ['verifyOTP'] in the
    second file, which does not handle them. *)
Theorem handlers_write_only_their_tables
    (sch : Schema) (socket : SocketId) (env : Env) (a : Action) (t : Table)
    (s : Server) :
  (ServerJs_writes a t = false ->
   table_same t (pool s) (pool (fst (run (ServerJs_on sch socket env a) s))))
  /\
  (Part000_writes a t = false ->
   table_same t (pool s) (pool (fst (run (Part000_on sch socket env a) s)))).
Proof.
  split; [apply ServerJs_step_frame|apply Part000_step_frame].
Qed.

Lemma handlers_write_only_their_tables_witness :
  ServerJs_writes (sendMessage_event "ZT-1111-2222" "ZT-3333-4444" "hi" 30)
                  friendships_table = false /\
  table_same friendships_table friends_db
    (pool (fst (run (ServerJs_on ordered_schema "s1" env0
                       (sendMessage_event "ZT-1111-2222" "ZT-3333-4444"
                                          "hi" 30))
                    (mkServer friends_db three_online)))).
Proof.
  assert (H : ServerJs_writes
                (sendMessage_event "ZT-1111-2222" "ZT-3333-4444" "hi" 30)
                friendships_table = false) by reflexivity.
  split; [exact H|].
  exact (proj1 (@handlers_write_only_their_tables ordered_schema "s1" env0
                  (sendMessage_event "ZT-1111-2222" "ZT-3333-4444" "hi" 30)
                  friendships_table (mkServer friends_db three_online)) H).
Defined.

Lemma step_only_grows (sch : Schema) (socket : SocketId) (env : Env)
    (a : Action) (s : Server) :
  only_grows s (fst (run (ServerJs_on sch socket env a) s)) /\
  only_grows s (fst (run (Part000_on sch socket env a) s)).
Proof.
  assert (Same : forall s',
            table_same friendships_table (pool s) (pool s') ->
            table_same messages_table (pool s) (pool s') ->
            only_grows s s').
  { intros s' F [M _]. cbn in F. split; exists [];
      rewrite app_nil_r; assumption. }
  assert (Acc : forall s',
            (friendships (pool s') = friendships (pool s) \/
             exists f, friendships (pool s') = friendships (pool s) ++ [f]) ->
            table_same messages_table (pool s) (pool s') ->
            only_grows s s').
  { intros s' F [M _]. split.
    - destruct F as [F|[f F]]; [exists []; now rewrite app_nil_r|now exists [f]].
    - exists []. now rewrite app_nil_r. }
  destruct a.
  1-4, 7: split;
    (apply Same; [apply ServerJs_step_frame || apply Part000_step_frame
                 |apply ServerJs_step_frame || apply Part000_step_frame];
     reflexivity).
  - destruct (acceptInvite_friendships sch socket fromPin toPin s) as [Hs Hp].
    cbv zeta in Hs, Hp. split.
    + apply Acc; [|apply ServerJs_step_frame; reflexivity].
      cbn [ServerJs_on]. rewrite Hs.
      destruct (friendship_conflict sch fromPin toPin (pool s)); eauto.
    + apply Acc; [|apply Part000_step_frame; reflexivity].
      cbn [Part000_on]. rewrite Hp.
      destruct (friendship_conflict sch fromPin toPin (pool s)); eauto.
  - split.
    + cbn [ServerJs_on]. rewrite ServerJs_sendMessage_run.
      destruct (AreRelated (pool s) fromPin toPin); cbn [fst];
        split; cbn; eexists; try reflexivity; now rewrite app_nil_r.
    + cbn [Part000_on]. rewrite Part000_sendMessage_run.
      destruct (AreRelated (pool s) fromPin toPin); cbn [fst];
        split; cbn; eexists; try reflexivity; now rewrite app_nil_r.
Qed.

Lemma only_grows_trans (s1 s2 s3 : Server) :
  only_grows s1 s2 -> only_grows s2 s3 -> only_grows s1 s3.
Proof.
  intros [[f1 F1] [m1 M1]] [[f2 F2] [m2 M2]]. split.
  - exists (f1 ++ f2). now rewrite F2, F1, app_assoc.
  - exists (m1 ++ m2). now rewrite M2, M1, app_assoc.
Qed.

Lemma handle_all_only_grows (on : SocketId -> Env -> Action -> M unit) :
  (forall socket env a s, only_grows s (fst (run (on socket env a) s))) ->
  forall trace s, only_grows s (fst (handle_all on trace s)).
Proof.
  intros Hstep trace.
  induction trace as [|[[socket env] a] rest IH]; intros s.
  - split; exists []; now rewrite app_nil_r.
  - cbn. specialize (Hstep socket env a s).
    destruct (run (on socket env a) s) as [s1 out1]. cbn in Hstep.
    specialize (IH s1).
    destruct (handle_all on rest s1) as [s2 out2]. cbn in *.
    now apply only_grows_trans with (s2 := s1).
Qed.

Lemma only_grows_related (s s' : Server) (a b : Pin) :
  only_grows s s' ->
  AreRelated (pool s) a b = true -> AreRelated (pool s') a b = true.
Proof.
  intros [[more F] _] H. apply AreRelated_true_iff in H.
  apply AreRelated_true_iff. destruct H as [f [Hin Hrow]].
  exists f. split; [|exact Hrow]. rewrite F. apply in_or_app. now left.
Qed.

(** X21. Nothing is ever revoked or erased.  Along any sequence of
    actions handled one after the other, in either file and under any
    schema, the Relationship rows and the Message rows of the starting
    state are still there, in place, with only new rows after them; so a
    pair that may exchange messages may do so ever after. *)
Theorem relationships_and_messages_only_grow
    (sch : Schema) (trace : list (SocketId * Env * Action)) (s : Server) :
  let js := fst (handle_all (ServerJs_on sch) trace s) in
  let p0 := fst (handle_all (Part000_on sch) trace s) in
  only_grows s js /\ only_grows s p0 /\
  forall a b, AreRelated (pool s) a b = true ->
              AreRelated (pool js) a b = true /\
              AreRelated (pool p0) a b = true.
Proof.
  intros js p0.
  assert (Gj : only_grows s js).
  { apply handle_all_only_grows. intros. apply step_only_grows. }
  assert (Gp : only_grows s p0).
  { apply handle_all_only_grows. intros. apply step_only_grows. }
  split; [exact Gj|]. split; [exact Gp|].
  intros a b H. split; eapply only_grows_related; eauto.
Qed.

Lemma step_presence (sch : Schema) (socket : SocketId) (env : Env)
    (a : Action) (s : Server) :
  touches_presence a = false ->
  activeUsers (fst (run (ServerJs_on sch socket env a) s)) = activeUsers s /\
  activeUsers (fst (run (Part000_on sch socket env a) s)) = activeUsers s.
Proof.
  destruct a; cbn [touches_presence ServerJs_on Part000_on]; intros H;
    try discriminate.
  - rewrite requestOTP_run. now split.
  - rewrite verifyOTP_run. destruct (List.length _ =? 0)%nat; [now split|].
    cbv zeta. destruct (snd (upsert_user_by_email _ _ _ _)); now split.
  - rewrite ServerJs_addContact_run, Part000_addContact_run.
    destruct (List.length _ =? 0)%nat; [now split|].
    destruct (invite_conflict sch fromPin toPin (pool s)); now split.
  - rewrite ServerJs_acceptInvite_run, Part000_acceptInvite_run. cbv zeta.
    destruct (friendship_conflict sch fromPin toPin (pool s)); now split.
  - rewrite ServerJs_sendMessage_run, Part000_sendMessage_run.
    destruct (AreRelated (pool s) fromPin toPin); now split.
Qed.

(** X22. Presence changes through [register] and [disconnect] only.
    Along any sequence of actions that holds neither of the two, handled
    one after the other in either file, the presence map stays what it
    was: no OTP, invite, accept or message action binds or unbinds a
    socket. *)
Theorem presence_only_by_register_and_disconnect
    (sch : Schema) (trace : list (SocketId * Env * Action)) (s : Server) :
  forallb (fun e => negb (touches_presence (snd e))) trace = true ->
  activeUsers (fst (handle_all (ServerJs_on sch) trace s)) = activeUsers s /\
  activeUsers (fst (handle_all (Part000_on sch) trace s)) = activeUsers s.
Proof.
  revert s. induction trace as [|[[socket env] a] rest IH]; intros s H.
  - now split.
  - cbn in H. apply andb_true_iff in H. destruct H as [Ha Hrest].
    apply negb_true_iff in Ha.
    destruct (step_presence sch socket env a s Ha) as [Sj Sp].
    cbn [handle_all].
    destruct (run (ServerJs_on sch socket env a) s) as [j1 oj1].
    destruct (run (Part000_on sch socket env a) s) as [p1 op1].
    cbn [fst] in Sj, Sp.
    destruct (IH j1 Hrest) as [Ij _]. destruct (IH p1 Hrest) as [_ Ip].
    destruct (handle_all (ServerJs_on sch) rest j1) as [j2 oj2].
    destruct (handle_all (Part000_on sch) rest p1) as [p2 op2].
    cbn [fst] in *. split; congruence.
Qed.

Lemma presence_only_by_register_and_disconnect_witness :
  forallb (fun e => negb (touches_presence (snd e)))
          [("s1", env0, addContact_event "ZT-1111-2222" "ZT-3333-4444");
           ("s2", env1, acceptInvite_event "ZT-1111-2222" "ZT-3333-4444");
           ("s1", env0,
            sendMessage_event "ZT-1111-2222" "ZT-3333-4444" "hi" 30)]
    = true /\
  activeUsers
    (fst (handle_all (ServerJs_on ordered_schema)
            [("s1", env0, addContact_event "ZT-1111-2222" "ZT-3333-4444");
             ("s2", env1, acceptInvite_event "ZT-1111-2222" "ZT-3333-4444");
             ("s1", env0,
              sendMessage_event "ZT-1111-2222" "ZT-3333-4444" "hi" 30)]
            (mkServer two_users three_online))) = three_online.
Proof.
  split; [reflexivity|].
  exact (proj1 (@presence_only_by_register_and_disconnect ordered_schema
                  [("s1", env0, addContact_event "ZT-1111-2222" "ZT-3333-4444");
                   ("s2", env1,
                    acceptInvite_event "ZT-1111-2222" "ZT-3333-4444");
                   ("s1", env0,
                    sendMessage_event "ZT-1111-2222" "ZT-3333-4444" "hi" 30)]
                  (mkServer two_users three_online) eq_refl)).
Defined.

(** ** Where emissions go *)

Lemma live_push_addressed (socket : SocketId) (m : ActiveUsers) (pin : Pin)
    (ev : Event) :
  is_push ev = true ->
  Forall (well_addressed socket m) (live_push m pin ev).
Proof.
  intros H. unfold live_push.
  destruct (Map_get m pin) as [id|] eqn:G; [|constructor].
  destruct (String.eqb_spec id ""); constructor; [|constructor].
  cbn. split; [exact H|]. split; [assumption|]. now exists pin.
Qed.

Lemma register_emissions (socket : SocketId) (zeusPin : Pin)
    (name about email : string) (s : Server) :
  (exists ev, snd (run (ServerJs.register socket zeusPin name about) s) =
                [socket_emitted socket ev]) /\
  (exists ev, snd (run (Part000.register socket zeusPin name email) s) =
                [socket_emitted socket ev]).
Proof.
  split.
  - unfold ServerJs.register. run_handler. cbn. eauto.
  - unfold Part000.register. run_handler. unfold upsert_user_by_pin.
    destruct (existsb (has_pin zeusPin) (users (pool s))) eqn:E; cbn.
    + destruct (existsb_filter_cons _ _ E) as [u [rest Hf]].
      rewrite Hf. cbn. eauto.
    + eauto.
Qed.

Ltac addressed :=
  repeat first
    [ apply Forall_app; split
    | apply live_push_addressed; reflexivity
    | apply Forall_cons; [reflexivity|]
    | apply Forall_nil ].

(** X24. Answers go to the issuer, pushes to bound sockets.  For every
    action, state and schema, in either file: each [socket.emit] of the
    handler (every ['error'], every OTP event, every acknowledgement)
    goes to the socket that issued the action and to no other; each
    [io.to(id).emit] carries an invite, friend or message push and goes
    to a non-empty socket id that the presence map binds to a code. *)
Theorem emissions_well_addressed
    (sch : Schema) (socket : SocketId) (env : Env) (a : Action) (s : Server) :
  Forall (well_addressed socket (activeUsers s))
         (snd (run (ServerJs_on sch socket env a) s)) /\
  Forall (well_addressed socket (activeUsers s))
         (snd (run (Part000_on sch socket env a) s)).
Proof.
  destruct a; cbn [ServerJs_on Part000_on].
  - rewrite requestOTP_run. cbn. split; addressed.
  - rewrite verifyOTP_run.
    destruct (List.length _ =? 0)%nat; [cbn; split; addressed|].
    cbv zeta. destruct (snd (upsert_user_by_email _ _ _ _));
      cbn; split; addressed.
  - destruct (register_emissions socket zeusPin name about email s)
      as [[ev1 E1] [ev2 E2]].
    rewrite E1, E2. split; addressed.
  - rewrite ServerJs_addContact_run, Part000_addContact_run.
    destruct (List.length _ =? 0)%nat; [split; addressed|].
    destruct (invite_conflict sch fromPin toPin (pool s));
      cbn [snd]; split; addressed.
  - rewrite ServerJs_acceptInvite_run, Part000_acceptInvite_run. cbv zeta.
    destruct (friendship_conflict sch fromPin toPin (pool s));
      cbn [snd]; split; addressed.
  - rewrite ServerJs_sendMessage_run, Part000_sendMessage_run.
    destruct (AreRelated (pool s) fromPin toPin);
      cbn [snd]; split; addressed.
  - cbn. split; addressed.
Qed.

(** ** Delivery follows presence *)

Lemma register_keeps_relations (socket : SocketId) (zeusPin : Pin)
    (name about email : string) (s : Server) :
  let js := fst (run (ServerJs.register socket zeusPin name about) s) in
  let p0 := fst (run (Part000.register socket zeusPin name email) s) in
  (friendships (pool js) = friendships (pool s) /\
   messages (pool js) = messages (pool s) /\
   messages_seq (pool js) = messages_seq (pool s)) /\
  (friendships (pool p0) = friendships (pool s) /\
   messages (pool p0) = messages (pool s) /\
   messages_seq (pool p0) = messages_seq (pool s)).
Proof.
  cbv zeta.
  rewrite (proj1 (register_pool socket zeusPin name about email s)).
  rewrite (proj2 (register_pool socket zeusPin name about email s)).
  unfold update_user_profile, upsert_user_by_pin.
  destruct (existsb (has_pin zeusPin) (users (pool s))); cbn; tauto.
Qed.

Lemma AreRelated_friendships (d d' : Db) (a b : Pin) :
  friendships d' = friendships d -> AreRelated d' a b = AreRelated d a b.
Proof.
  intros E. unfold AreRelated, select_friendship. now rewrite E.
Qed.


Lemma live_push_unbound (m : ActiveUsers) (pin : Pin) (ev : Event) :
  Map_get m pin = None -> live_push m pin ev = [].
Proof.
  intros G. unfold live_push. now rewrite G.
Qed.



(** X26. A message to a recipient who left is stored, not pushed.  For a
    socket that had no other binding, with the keys of the map distinct:
    after the recipient's code is registered from the socket and the
    socket disconnects, a message of a related sender is appended to
    [messages] and the only emission is the acknowledgement to the
    sender. *)
Theorem message_after_disconnect_is_stored
    (socket sender : SocketId) (fromPin toPin : Pin)
    (name about message : string) (ttl now : Z) (s : Server) :
  related (pool s) fromPin toPin ->
  distinct_keys (activeUsers s) ->
  bindings_of socket (activeUsers s) = [] ->
  let gone := fst (run (disconnect socket)
                       (fst (run (ServerJs.register socket toPin name about)
                                 s))) in
  let sent := run (ServerJs.sendMessage sender now fromPin toPin message ttl)
                  gone in
  snd sent = [socket_emitted sender (messageSent toPin message)] /\
  messages (pool (fst sent)) =
    messages (pool s)
    ++ [mkMessage (messages_seq (pool s)) fromPin toPin message ttl now].
Proof.
  intros R Hnd Hfree gone sent. apply AreRelated_true_iff in R.
  set (j1 := fst (run (ServerJs.register socket toPin name about) s)) in *.
  destruct (register_keeps_relations socket toPin name about "" s)
    as [[F1 [M1 Q1]] _].
  fold j1 in F1, M1, Q1. cbv zeta in *.
  assert (Pg : pool gone = pool j1) by reflexivity.
  assert (Ag : Map_get (activeUsers gone) toPin = None).
  { subst gone. unfold disconnect at 1, run at 1. cbn [fst activeUsers].
    rewrite disconnect_loop_first_binding. subst j1.
    rewrite (proj1 (register_activeUsers socket toPin name about "" s)).
    rewrite first_binding_set by now apply first_binding_none.
    apply Map_get_delete_same. unfold distinct_keys.
    now apply Map_set_NoDup. }
  clearbody gone j1.
  assert (Rg : AreRelated (pool gone) fromPin toPin = true).
  { rewrite Pg. rewrite AreRelated_friendships with (d := pool s) by exact F1.
    exact R. }
  subst sent. rewrite ServerJs_sendMessage_run, Rg. cbn [fst snd pool].
  rewrite live_push_unbound by exact Ag. split; [reflexivity|].
  unfold insert_message. cbn. now rewrite Pg, M1, Q1.
Qed.

Lemma message_after_disconnect_is_stored_witness :
  related friends_db "ZT-1111-2222" "ZT-3333-4444" /\
  distinct_keys [] /\ bindings_of "s2" [] = [] /\
  snd (run (ServerJs.sendMessage "s1" 7 "ZT-1111-2222" "ZT-3333-4444" "hi" 30)
           (fst (run (disconnect "s2")
                     (fst (run (ServerJs.register "s2" "ZT-3333-4444" "Bo" "")
                               (mkServer friends_db []))))))
  = [socket_emitted "s1" (messageSent "ZT-3333-4444" "hi")].
Proof.
  assert (R : related (pool (mkServer friends_db []))
                      "ZT-1111-2222" "ZT-3333-4444").
  { apply AreRelated_true_iff. reflexivity. }
  assert (D : distinct_keys (activeUsers (mkServer friends_db [])))
    by apply NoDup_nil.
  assert (B : bindings_of "s2" (activeUsers (mkServer friends_db [])) = [])
    by reflexivity.
  split; [exact R|]. split; [exact D|]. split; [exact B|].
  exact (proj1 (@message_after_disconnect_is_stored "s2" "s1"
                  "ZT-1111-2222" "ZT-3333-4444" "Bo" "" "hi" 30 7
                  (mkServer friends_db []) R D B)).
Defined.

(** ** Accepted invites *)

Lemma step_keeps_accepted (sch : Schema) (socket : SocketId) (env : Env)
    (a : Action) (s : Server) (f t : Pin) :
  accepted_invite (pool s) f t ->
  accepted_invite (pool (fst (run (ServerJs_on sch socket env a) s))) f t /\
  accepted_invite (pool (fst (run (Part000_on sch socket env a) s))) f t.
Proof.
  unfold accepted_invite. intros H.
  assert (Acc : forall fromPin toPin,
            In (mkInvite f t accepted)
               (invites (fst (update_invite_status accepted fromPin toPin
                                (pool s))))).
  { intros fromPin toPin. unfold update_invite_status. cbn.
    apply in_map_iff. exists (mkInvite f t accepted).
    split; [|exact H]. cbn. now destruct (same_ordered f t fromPin toPin). }
  destruct a.
  1-3, 6-7: split;
    (rewrite (ServerJs_step_frame sch socket env _ invites_table s)
     || rewrite (Part000_step_frame sch socket env _ invites_table s);
     [exact H|reflexivity]).
  - cbn [ServerJs_on Part000_on].
    rewrite ServerJs_addContact_run, Part000_addContact_run.
    destruct (List.length _ =? 0)%nat; [now split|].
    unfold insert_invite_on_conflict_do_nothing.
    destruct (invite_conflict sch fromPin toPin (pool s)); [now split|].
    cbn. split; apply in_or_app; now left.
  - cbn [ServerJs_on Part000_on].
    rewrite ServerJs_acceptInvite_run, Part000_acceptInvite_run. cbv zeta.
    unfold insert_friendship_on_conflict_do_nothing.
    assert (C' : friendship_conflict sch fromPin toPin
                   (fst (update_invite_status accepted fromPin toPin (pool s)))
                 = friendship_conflict sch fromPin toPin (pool s))
      by reflexivity.
    rewrite C'.
    destruct (friendship_conflict sch fromPin toPin (pool s));
      cbn [fst pool]; split; apply Acc.
Qed.

(** X27. An accepted invite stays accepted.  Along any sequence of
    actions handled one after the other, in either file and under any
    schema, an Invite row with status accepted is never removed and
    never set back to pending, not even by a new invite for the same
    ordered pair. *)
Theorem accepted_invites_stay_accepted
    (sch : Schema) (trace : list (SocketId * Env * Action)) (s : Server)
    (fromPin toPin : Pin) :
  accepted_invite (pool s) fromPin toPin ->
  accepted_invite (pool (fst (handle_all (ServerJs_on sch) trace s)))
                  fromPin toPin /\
  accepted_invite (pool (fst (handle_all (Part000_on sch) trace s)))
                  fromPin toPin.
Proof.
  intros H. split.
  - apply (handle_all_invariant (ServerJs_on sch)
             (fun s => accepted_invite (pool s) fromPin toPin)); [|exact H].
    intros socket env a s0 H0.
    now apply (step_keeps_accepted sch socket env a s0).
  - apply (handle_all_invariant (Part000_on sch)
             (fun s => accepted_invite (pool s) fromPin toPin)); [|exact H].
    intros socket env a s0 H0.
    now apply (step_keeps_accepted sch socket env a s0).
Qed.

Lemma accepted_invites_stay_accepted_witness :
  accepted_invite
    (set_invites two_users [mkInvite "ZT-1111-2222" "ZT-3333-4444" accepted])
    "ZT-1111-2222" "ZT-3333-4444" /\
  accepted_invite
    (pool (fst (handle_all (ServerJs_on ordered_schema)
                  [("s1", env0,
                    addContact_event "ZT-1111-2222" "ZT-3333-4444")]
                  (mkServer
                     (set_invites two_users
                        [mkInvite "ZT-1111-2222" "ZT-3333-4444" accepted])
                     []))))
    "ZT-1111-2222" "ZT-3333-4444".
Proof.
  assert (H : accepted_invite
                (pool (mkServer
                         (set_invites two_users
                            [mkInvite "ZT-1111-2222" "ZT-3333-4444" accepted])
                         []))
                "ZT-1111-2222" "ZT-3333-4444") by (now left).
  split; [exact H|].
  exact (proj1 (@accepted_invites_stay_accepted ordered_schema
                  [("s1", env0,
                    addContact_event "ZT-1111-2222" "ZT-3333-4444")]
                  (mkServer
                     (set_invites two_users
                        [mkInvite "ZT-1111-2222" "ZT-3333-4444" accepted])
                     [])
                  "ZT-1111-2222" "ZT-3333-4444" H)).
Defined.
